(** * A private star-registry blockchain: shallow embedding and properties

    The development follows [src/blockchain.js].  JavaScript values the
    code manipulates are modelled first (module [Js]), then the [Block]
    objects the chain stores, then the [Blockchain] class method by method.
    Numbers are exact integers ([Z]); [NaN] is the absent number.  Strings
    are sequences of 8-bit code units. *)

From Stdlib Require Import ZArith List String Ascii Bool Lia.
Import ListNotations.

Local Open Scope Z_scope.

(** ** JavaScript values and built-ins used by the code *)
Module Js.

(** Outcome of evaluating an expression or awaiting a promise inside a
    function body: a value, or a thrown exception / rejected promise. *)
Inductive Completion (A : Type) : Type :=
| Normal (a : A)
| Throw.
Arguments Normal {A} a.
Arguments Throw {A}.

(** The primitive values that reach [===] in the code. *)
Inductive Val : Type :=
| VNull
| VNaN
| VNum (n : Z)
| VStr (s : string).

(** State of a promise handed back to the caller once the executor has run.
    Every executor in [blockchain.js] runs to its end without a real
    suspension point, so the promise is then resolved, rejected, or (when the
    [async] executor threw before calling [res]/[rej]) left pending for ever.
    A rejection carries the value given to [rej]. *)
Inductive Settled (A : Type) : Type :=
| Resolved (a : A)
| Rejected (reason : Val)
| Pending.
Arguments Resolved {A} a.
Arguments Rejected {A} reason.
Arguments Pending {A}.

(** [a === b] on primitives: same type and same value; [NaN] equals nothing. *)
Definition strict_eq (a b : Val) : bool :=
  match a, b with
  | VNull, VNull => true
  | VNum m, VNum n => m =? n
  | VStr s, VStr t => String.eqb s t
  | _, _ => false
  end.

(** A number is an integer or [NaN]. *)
Definition number := option Z.

Definition num_sub (a b : number) : number :=
  match a, b with
  | Some x, Some y => Some (x - y)
  | _, _ => None
  end.

(** [a < k]: any comparison with [NaN] is false. *)
Definition num_lt (a : number) (k : Z) : bool :=
  match a with
  | Some x => x <? k
  | None => false
  end.

(** *** Strings *)

Definition colon : ascii := ":"%char.

(** [s.split(sep)] for a one-character separator. *)
Fixpoint split (sep : ascii) (s : string) : list string :=
  match s with
  | EmptyString => [EmptyString]
  | String c rest =>
      if Ascii.eqb c sep then EmptyString :: split sep rest
      else match split sep rest with
           | [] => [String c EmptyString]
           | field :: fields => String c field :: fields
           end
  end.

(** [s.slice(0, -k)]: the string without its last [k] code units. *)
Definition slice_to_neg (s : string) (k : nat) : string :=
  string_of_list_ascii
    (firstn (List.length (list_ascii_of_string s) - k) (list_ascii_of_string s)).

(** *** Number.prototype.toString on integers *)

Definition digit_char (d : Z) : ascii := ascii_of_N (48 + Z.to_N d).

(** Decimal digits of a non-negative integer, least significant first. *)
Fixpoint digits_rev (fuel : nat) (n : Z) : list ascii :=
  match fuel with
  | O => []
  | S fuel' =>
      if n <? 10 then [digit_char n]
      else digit_char (n mod 10) :: digits_rev fuel' (n / 10)
  end.

(** One more step than the binary length is always enough. *)
Definition digits_fuel (n : Z) : nat := S (Z.to_nat (Z.log2 n)).

Definition nat_toString (n : Z) : string :=
  string_of_list_ascii (rev (digits_rev (digits_fuel n) n)).

Definition toString (n : Z) : string :=
  if n <? 0 then String "-"%char (nat_toString (- n)) else nat_toString n.

(** *** parseInt with no radix argument *)

Definition is_whitespace (c : ascii) : bool :=
  let n := N_of_ascii c in
  ((9 <=? n) && (n <=? 13) || (n =? 32) || (n =? 160))%N.

Fixpoint trim_start (s : string) : string :=
  match s with
  | String c rest => if is_whitespace c then trim_start rest else s
  | EmptyString => s
  end.

(** Value of a code unit as a digit in the given radix, if it is one. *)
Definition digit_value (radix : Z) (c : ascii) : option Z :=
  let n := Z.of_N (N_of_ascii c) in
  let v := if (48 <=? n) && (n <=? 57) then Some (n - 48)
           else if (97 <=? n) && (n <=? 122) then Some (n - 87)
           else if (65 <=? n) && (n <=? 90) then Some (n - 55)
           else None in
  match v with
  | Some d => if d <? radix then Some d else None
  | None => None
  end.

(** Longest prefix of radix digits, accumulated left to right; [None] when
    the prefix is empty. *)
Fixpoint parse_digits (radix : Z) (s : string) (acc : option Z) : option Z :=
  match s with
  | EmptyString => acc
  | String c rest =>
      match digit_value radix c with
      | Some d =>
          parse_digits radix rest
            (Some (match acc with Some a => a * radix + d | None => d end))
      | None => acc
      end
  end.

Definition strip_sign (s : string) : Z * string :=
  match s with
  | String "-"%char rest => (-1, rest)
  | String "+"%char rest => (1, rest)
  | _ => (1, s)
  end.

Definition strip_hex_prefix (s : string) : Z * string :=
  match s with
  | String "0"%char (String "x"%char rest) => (16, rest)
  | String "0"%char (String "X"%char rest) => (16, rest)
  | _ => (10, s)
  end.

Definition parseInt (s : string) : number :=
  let '(sign, s1) := strip_sign (trim_start s) in
  let '(radix, s2) := strip_hex_prefix s1 in
  match parse_digits radix s2 None with
  | Some m => Some (sign * m)
  | None => None
  end.

(** [parseInt(fields[1])]: a missing field is [undefined], which parses as
    the text "undefined", that is [NaN]. *)
Definition parseInt_field (field : option string) : number :=
  match field with
  | Some s => parseInt s
  | None => None
  end.

(** [new Date().getTime().toString().slice(0, -3)] for a clock reading in
    milliseconds. *)
Definition epoch_seconds_text (now_ms : Z) : string :=
  slice_to_neg (toString now_ms) 3.

(** *** JSON.stringify on strings *)

Definition hex_digit (n : N) : ascii :=
  if (n <? 10)%N then ascii_of_N (48 + n) else ascii_of_N (87 + n).

Definition backslash : ascii := ascii_of_N 92.

Definition escaped (c : ascii) : string := String backslash (String c EmptyString).

Definition json_escape_char (c : ascii) : string :=
  let n := N_of_ascii c in
  if (n =? 34)%N then escaped c
  else if (n =? 92)%N then escaped c
  else if (n =? 8)%N then escaped "b"%char
  else if (n =? 9)%N then escaped "t"%char
  else if (n =? 10)%N then escaped "n"%char
  else if (n =? 12)%N then escaped "f"%char
  else if (n =? 13)%N then escaped "r"%char
  else if (n <? 32)%N then
    String backslash
      (String.append "u00"%string
         (String (hex_digit (n / 16)) (String (hex_digit (n mod 16)) EmptyString)))
  else String c EmptyString.

Fixpoint json_escape (s : string) : string :=
  match s with
  | EmptyString => EmptyString
  | String c rest => String.append (json_escape_char c) (json_escape rest)
  end.

Definition dquote : string := String (ascii_of_N 34) EmptyString.

Definition json_string (s : string) : string :=
  String.append dquote (String.append (json_escape s) dquote).

Definition json_val (v : Val) : string :=
  match v with
  | VNull => "null"%string
  | VNaN => "null"%string
  | VNum n => toString n
  | VStr s => json_string s
  end.

End Js.

Import Js.

(** ** Block objects *)

(** What the code passes to [new Block(...)], the object
    [{ data: ... }] (and what [getBData] gives back): the genesis text or a
    claim [{ star, owner }].  [Star] is whatever the client submitted. *)
Inductive BData (Star : Type) : Type :=
| DataString (s : string)
| DataClaim (star : Star) (owner : string).
Arguments DataString {Star} s.
Arguments DataClaim {Star} star owner.

(** Modelled from the spec: the class [Block] ([block.js]) is not among the
    sources.  A Record holds an integrity hash, a height, an encoded payload,
    a time and the predecessor's hash, the last one null for genesis;
    [blockchain.js] reads and writes exactly these properties.  [time] is a
    primitive value because [_addBlock] stores text in it. *)
Record Block : Type := mkBlock {
  hash : option string;
  height : Z;
  body : string;
  time : Val;
  previousBlockHash : option string
}.

(** A nullable string property as a primitive value. *)
Definition nullable (o : option string) : Val :=
  match o with
  | Some s => VStr s
  | None => VNull
  end.

Definition set_hash (h : option string) (b : Block) : Block :=
  mkBlock h (height b) (body b) (time b) (previousBlockHash b).

Definition set_height (n : Z) (b : Block) : Block :=
  mkBlock (hash b) n (body b) (time b) (previousBlockHash b).

Definition set_time (t : Val) (b : Block) : Block :=
  mkBlock (hash b) (height b) (body b) t (previousBlockHash b).

Definition set_previousBlockHash (p : option string) (b : Block) : Block :=
  mkBlock (hash b) (height b) (body b) (time b) p.

Definition json_key (k : string) : string :=
  String.append dquote (String.append k (String.append dquote ":"%string)).

Definition json_object (members : list (string * string)) : string :=
  String.append "{"%string
    (String.append
       (String.concat ","%string
          (map (fun kv => String.append (json_key (fst kv)) (snd kv)) members))
       "}"%string).

(** [JSON.stringify(block)]: the own properties in creation order. *)
Definition JSON_stringify (b : Block) : string :=
  json_object
    [ ("hash"%string, json_val (nullable (hash b)));
      ("height"%string, json_val (VNum (height b)));
      ("body"%string, json_val (VStr (body b)));
      ("time"%string, json_val (time b));
      ("previousBlockHash"%string, json_val (nullable (previousBlockHash b))) ].

(** The text the digest is computed over for a Record with the given
    height, payload, time and predecessor hash: the hash slot holds [null]. *)
Definition digest_input (h : Z) (payload : string) (t : Val) (prev : option string)
  : string :=
  JSON_stringify (mkBlock None h payload t prev).

(** The entry [{ hash: currentBlock.hash, valid: false }] of the error log. *)
Record ErrorEntry : Type := mkErrorEntry {
  entry_hash : option string;
  entry_valid : bool
}.

(** ** The Blockchain class *)

Record Blockchain : Type := mkBlockchain {
  chain : list Block;
  chain_height : Z
}.

Definition FIVE_MINUTES_UTC : Z := 30000.

Definition genesis_text : string := "Genesis Block"%string.

(** [xs[i]] for an integer index: [undefined] outside the array. *)
Definition at_index {A : Type} (xs : list A) (i : Z) : option A :=
  if i <? 0 then None else nth_error xs (Z.to_nat i).

Section Registry.

Context {Star : Type}.

(** [crypto-js/sha256] followed by [toString()]. *)
Variable SHA256 : string -> string.

(** [bitcoinMessage.verify(message, address, signature)]; it throws on
    malformed addresses and signatures. *)
Variable verify : string -> string -> string -> Completion bool.

(** Modelled from the spec: [block.js] is not among the sources.  The
    constructor stores a reversible encoding of its argument in [body]. *)
Variable encode : BData Star -> string.

(** Modelled from the spec: [block.getBData()] of the absent [block.js],
    decoding [body]; it fails when the stored text is not validly formed. *)
Variable getBData : Block -> Completion (BData Star).

(** Modelled from the spec: [block.validate()] of the absent [block.js],
    telling whether the Record's recomputed digest equals its stored hash.
    [validateChain] awaits it inside a [try], so a rejection is allowed for. *)
Variable validate : Block -> Completion bool.

(** Modelled from the spec: the constructor of the absent [block.js].  A new
    Record has no hash and no predecessor yet ([validateChain] expects
    [previousBlockHash === null] of the genesis Record, which [_addBlock]
    never assigns). *)
Definition new_Block (data : BData Star) : Block :=
  mkBlock None 0 (encode data) (VNum 0) None.

(** The tail of [_addBlock]: stamp the time, hash the whole object, push. *)
Definition seal (self : Blockchain) (h : Z) (block : Block) (now_ms : Z)
  : Blockchain * Completion Block :=
  let block1 := set_time (VStr (epoch_seconds_text now_ms)) block in
  let block2 := set_hash (Some (SHA256 (JSON_stringify block1))) block1 in
  (mkBlockchain (chain self ++ [block2]) h, Normal block2).

(** [_addBlock(block)].  [now_ms] is the clock read by [new Date()].  When
    the height is not -1 and the array is empty, reading [.hash] of
    [undefined] throws after the height was incremented. *)
Definition _addBlock (self : Blockchain) (block : Block) (now_ms : Z)
  : Blockchain * Completion Block :=
  if chain_height self =? -1 then
    seal self 1 (set_height 1 block) now_ms
  else
    let h := chain_height self + 1 in
    match at_index (chain self) (Z.of_nat (List.length (chain self)) - 1) with
    | Some tail =>
        seal self h (set_previousBlockHash (hash tail) (set_height h block)) now_ms
    | None => (mkBlockchain (chain self) h, Throw)
    end.

(** [initializeChain()]. *)
Definition initializeChain (self : Blockchain) (now_ms : Z) : Blockchain :=
  if chain_height self =? -1 then
    fst (_addBlock self (new_Block (DataString genesis_text)) now_ms)
  else self.

(** [new Blockchain()]. *)
Definition new_Blockchain (now_ms : Z) : Blockchain :=
  initializeChain (mkBlockchain [] (-1)) now_ms.

(** [getChainHeight()]. *)
Definition getChainHeight (self : Blockchain) : Settled Z :=
  Resolved (chain_height self).

(** [requestMessageOwnershipVerification(address)]. *)
Definition requestMessageOwnershipVerification (address : string) (now_ms : Z)
  : Settled string :=
  Resolved
    (String.append address
       (String.append ":"%string
          (String.append (epoch_seconds_text now_ms) ":starRegistry"%string))).

(** The first conjunct of the test in [submitStar]. *)
Definition within_window (message : string) (now_ms : Z) : bool :=
  let messageTimeStamp := parseInt_field (nth_error (split colon message) 1) in
  let currentTime := parseInt (epoch_seconds_text now_ms) in
  num_lt (num_sub currentTime messageTimeStamp) FIVE_MINUTES_UTC.

(** [submitStar(address, message, signature, star)].  The clock is read once
    for the test ([now_ms]) and once more when the Record is sealed
    ([seal_ms]).  [&&] evaluates [verify] only inside the window. *)
Definition submitStar (self : Blockchain)
    (address message signature : string) (star : Star) (now_ms seal_ms : Z)
  : Blockchain * Settled Block :=
  if within_window message now_ms then
    match verify message address signature with
    | Normal true =>
        match _addBlock self (new_Block (DataClaim star address)) seal_ms with
        | (self', Normal block) => (self', Resolved block)
        | (self', Throw) => (self', Pending)
        end
    | Normal false => (self, Rejected VNull)
    | Throw => (self, Pending)
    end
  else (self, Rejected VNull).

(** [array.find(pred) ?? null]: [None] is [null]. *)
Definition getBlockByHash (self : Blockchain) (h : Val) : Settled (option Block) :=
  Resolved (find (fun b => strict_eq (nullable (hash b)) h) (chain self)).

Definition getBlockByHeight (self : Blockchain) (h : Val) : Settled (option Block) :=
  Resolved (find (fun b => strict_eq (VNum (height b)) h) (chain self)).

(** The [for ... of] loop of [getStarsByWalletAddress]. *)
Fixpoint collect_stars (blocks : list Block) (address : string) (stars : list Star)
  : Completion (list Star) :=
  match blocks with
  | [] => Normal stars
  | block :: rest =>
      match getBData block with
      | Throw => Throw
      | Normal (DataString _) => collect_stars rest address stars
      | Normal (DataClaim star owner) =>
          if String.eqb owner address
          then collect_stars rest address (stars ++ [star])
          else collect_stars rest address stars
      end
  end.

(** [getStarsByWalletAddress(address)]: an exception inside the [async]
    executor leaves the promise pending. *)
Definition getStarsByWalletAddress (self : Blockchain) (address : string)
  : Settled (list Star) :=
  match collect_stars (chain self) address [] with
  | Normal stars => Resolved stars
  | Throw => Pending
  end.

(** The statements inside [try] for index [i]: [Normal valid] is the value of
    [valid] when the block is left ([continue] leaves it with [true]). *)
Definition check_block (self : Blockchain) (i : Z) (currentBlock : Block)
  : Completion bool :=
  match validate currentBlock with
  | Throw => Throw
  | Normal false => Normal false
  | Normal true =>
      if strict_eq (nullable (previousBlockHash currentBlock)) VNull
         && (height currentBlock =? 1)
      then Normal true
      else
        match at_index (chain self) (i - 1) with
        | None => Throw
        | Some previous =>
            if negb (strict_eq (nullable (previousBlockHash currentBlock))
                       (nullable (hash previous)))
               || negb (height currentBlock =? height previous + 1)
            then Normal false
            else Normal true
        end
  end.

Definition error_entry (b : Block) : ErrorEntry := mkErrorEntry (hash b) false.

(** One iteration of the loop of [validateChain]. *)
Definition validate_iteration (self : Blockchain) (errorLog : list ErrorEntry)
    (i : nat) : list ErrorEntry :=
  match at_index (chain self) (Z.of_nat i) with
  | None => errorLog
  | Some currentBlock =>
      match check_block self (Z.of_nat i) currentBlock with
      | Normal true => errorLog
      | Normal false => errorLog ++ [error_entry currentBlock]
      | Throw => errorLog ++ [error_entry currentBlock]
      end
  end.

(** [validateChain()]: [i] runs from 0 to [chain.length - 1]. *)
Definition validateChain (self : Blockchain) : Settled (list ErrorEntry) :=
  Resolved
    (fold_left (validate_iteration self) (seq 0 (List.length (chain self))) []).

End Registry.

(** ** The methods of a Record, after the specification *)

Section BlockMethods.

Context {Star : Type}.
Variable SHA256 : string -> string.

(** Modelled from the spec: [decode(payload)] of the absent [block.js], the
    inverse of the constructor's encoding; [None] is a decode failure. *)
Variable decode : string -> option (BData Star).

(** Modelled from the spec: [recomputeHash()] of the absent [block.js]: the
    digest of the Record serialised with its hash left out, the state in
    which [_addBlock] hashes it. *)
Definition recomputeHash (b : Block) : string :=
  SHA256 (digest_input (height b) (body b) (time b) (previousBlockHash b)).

(** Modelled from the spec: [getBData()] of the absent [block.js]. *)
Definition Block_getBData (b : Block) : Completion (BData Star) :=
  match decode (body b) with
  | Some data => Normal data
  | None => Throw
  end.

(** Modelled from the spec: [validate()] of the absent [block.js]: decode the
    payload, compare the recomputed digest with the stored hash, answer
    false on a decode failure or a mismatch, never throw. *)
Definition Block_validate (b : Block) : Completion bool :=
  match decode (body b) with
  | Some _ => Normal (strict_eq (nullable (hash b)) (VStr (recomputeHash b)))
  | None => Normal false
  end.

End BlockMethods.

(** ** Chains the class itself can build *)

Section Reachable.

Context {Star : Type}.
Variable SHA256 : string -> string.
Variable encode : BData Star -> string.

(** A ledger state obtained from the empty one ([chain = []],
    [height = -1]) by calls of [_addBlock] on newly constructed Records, the
    only way [blockchain.js] calls it. *)
Inductive built : Blockchain -> Prop :=
| built_empty : built (mkBlockchain [] (-1))
| built_add (self : Blockchain) (data : BData Star) (now_ms : Z) :
    built self ->
    built (fst (_addBlock SHA256 self (new_Block encode data) now_ms)).

(** Heights count from 1, every stored Record is hashed, only the first has
    no predecessor hash, and each later one carries its predecessor's. *)
Definition linked (self : Blockchain) : Prop :=
  chain_height self
    = match chain self with [] => -1 | _ => Z.of_nat (List.length (chain self)) end
  /\ (forall i b, nth_error (chain self) i = Some b ->
        height b = Z.of_nat i + 1
        /\ hash b <> None
        /\ (previousBlockHash b = None <-> i = 0%nat))
  /\ (forall i p b, nth_error (chain self) i = Some p ->
        nth_error (chain self) (S i) = Some b ->
        previousBlockHash b = hash p).

End Reachable.

(** ** Sample instances of the external functions, for evaluation *)
Module Sample.

(** A stand-in for the digest: it brackets its input. *)
Definition digest (s : string) : string :=
  String.append "#"%string s.

(** A stand-in for the payload encoding, with stars given as text. *)
Definition encode (d : BData string) : string :=
  match d with
  | DataString s => String "S"%char s
  | DataClaim star owner =>
      String "C"%char (String.append owner (String colon star))
  end.

Fixpoint break_at (sep : ascii) (s : string) : option (string * string) :=
  match s with
  | EmptyString => None
  | String c rest =>
      if Ascii.eqb c sep then Some (EmptyString, rest)
      else match break_at sep rest with
           | Some (l, r) => Some (String c l, r)
           | None => None
           end
  end.

Definition decode (s : string) : option (BData string) :=
  match s with
  | String "S"%char text => Some (DataString text)
  | String "C"%char rest =>
      match break_at colon rest with
      | Some (owner, star) => Some (DataClaim star owner)
      | None => None
      end
  | _ => None
  end.

(** A verifier that accepts exactly the signature text "signed". *)
Definition verify (message address signature : string) : Completion bool :=
  Normal (String.eqb signature "signed"%string).

Definition getBData : Block -> Completion (BData string) := Block_getBData decode.

Definition validate : Block -> Completion bool := Block_validate digest decode.

(** The genesis Record sealed at 1638090052123 ms. *)
Definition genesis : Block :=
  mkBlock
    (Some (digest (digest_input 1 "SGenesis Block"%string
                     (VStr "1638090052"%string) None)))
    1 "SGenesis Block"%string (VStr "1638090052"%string) None.

(** A ledger with its genesis Record and one claim. *)
Definition ledger2 : Blockchain :=
  fst (submitStar digest verify encode (new_Blockchain digest encode 1638090052123)
         "addrA"%string "addrA:1638090052:starRegistry"%string "signed"%string
         "Sirius"%string 1638090112456 1638090112457).


(** Two genesis Records in a row, the second sealed a minute later. *)
Definition twin_genesis : Blockchain :=
  mkBlockchain
    (chain (new_Blockchain digest encode 1638090052123)
     ++ chain (new_Blockchain digest encode 1638090112123)) 2.

(** [ledger2] with the payload of its second Record overwritten by text
    that does not decode. *)
Definition garbled : Blockchain :=
  match chain ledger2 with
  | [g; b] =>
      mkBlockchain
        [g; mkBlock (hash b) (height b) "?"%string (time b) (previousBlockHash b)] 2
  | _ => ledger2
  end.

(** The Record [ledger2] holds after its genesis Record. *)
Definition claim_record : Block :=
  nth 1 (chain ledger2) genesis.

End Sample.

(** ** Notions used in the statements *)

(** A code unit that is one of the ten decimal digits. *)
Definition is_digit_char (a : ascii) : Prop :=
  exists d : Z, 0 <= d < 10 /\ a = digit_char d.

(** The time field read as a claim about its type: a number of seconds. *)
Definition holds_integer (v : Val) : Prop :=
  exists n : Z, v = VNum n.

(** The stars a list of decoded payloads attributes to [address], in the
    order of the list; the genesis text attributes none. *)
Definition owned_stars {Star : Type} (address : string) (payloads : list (BData Star))
  : list Star :=
  flat_map
    (fun d => match d with
              | DataClaim star owner =>
                  if String.eqb owner address then [star] else []
              | DataString _ => []
              end)
    payloads.

(** A Record shaped like the genesis Record. *)
Definition genesis_shaped (b : Block) : Prop :=
  previousBlockHash b = None /\ height b = 1.

(** The chain is fully valid in the sense of the data model, where the
    genesis Record is the first Record: every Record passes its own
    validation, the first has no predecessor hash and height 1, and every
    later one carries the hash of the Record before it and a height one
    larger. *)
Definition chain_fully_valid (validate : Block -> Completion bool)
    (self : Blockchain) : Prop :=
  forall i b, nth_error (chain self) i = Some b ->
    validate b = Normal true
    /\ match i with
       | O => previousBlockHash b = None /\ height b = 1
       | S j =>
           exists p, nth_error (chain self) j = Some p
                     /\ previousBlockHash b = hash p
                     /\ height b = height p + 1
       end.

(** No code unit of the text is a comma. *)
Definition comma_free (s : string) : Prop :=
  Forall (fun c => c <> ","%char) (list_ascii_of_string s).

(** The value of a lower-case hexadecimal digit. *)
Definition unhex (c : ascii) : option N :=
  let n := N_of_ascii c in
  if ((48 <=? n) && (n <=? 57))%N then Some (n - 48)%N
  else if ((97 <=? n) && (n <=? 102))%N then Some (n - 87)%N
  else None.

(** Reads one code unit of the content of a JSON string literal back from
    the front of a text, undoing [json_escape_char]; [None] at the closing
    quote and on text that is no escape. *)
Definition read_escaped (s : string) : option (ascii * string) :=
  match s with
  | EmptyString => None
  | String c rest =>
      if Ascii.eqb c (ascii_of_N 34) then None
      else if Ascii.eqb c backslash then
        match rest with
        | EmptyString => None
        | String e rest1 =>
            if Ascii.eqb e "u"%char then
              match rest1 with
              | String "0"%char (String "0"%char (String x (String y rest2))) =>
                  match unhex x, unhex y with
                  | Some a, Some b => Some (ascii_of_N (16 * a + b), rest2)
                  | _, _ => None
                  end
              | _ => None
              end
            else if Ascii.eqb e "b"%char then Some (ascii_of_N 8, rest1)
            else if Ascii.eqb e "t"%char then Some (ascii_of_N 9, rest1)
            else if Ascii.eqb e "n"%char then Some (ascii_of_N 10, rest1)
            else if Ascii.eqb e "f"%char then Some (ascii_of_N 12, rest1)
            else if Ascii.eqb e "r"%char then Some (ascii_of_N 13, rest1)
            else Some (e, rest1)
        end
      else Some (c, rest)
  end.

Section Validity.

Variable validate : Block -> Completion bool.

(** The Record at index [i] is sound: its own validation succeeds with
    [true], and it is shaped like genesis or follows the Record before it. *)
Definition record_sound (self : Blockchain) (i : nat) (b : Block) : Prop :=
  validate b = Normal true
  /\ (genesis_shaped b
      \/ exists p, (0 < i)%nat
                   /\ nth_error (chain self) (i - 1) = Some p
                   /\ previousBlockHash b = hash p
                   /\ height b = height p + 1).

(** The entries the Record at index [i] contributes to the error log. *)
Definition entries_at (self : Blockchain) (i : nat) : list ErrorEntry :=
  match nth_error (chain self) i with
  | Some b =>
      match check_block validate self (Z.of_nat i) b with
      | Normal true => []
      | _ => [error_entry b]
      end
  | None => []
  end.

End Validity.

(** ** Ledgers reachable through the public methods *)

Section Api.

Context {Star : Type}.
Variable SHA256 : string -> string.
Variable verify : string -> string -> string -> Completion bool.
Variable encode : BData Star -> string.

(** A ledger a client of the class can hold: constructed by
    [new Blockchain()], then changed only by [submitStar] and
    [initializeChain], with any arguments and clock readings. *)
Inductive reachable : Blockchain -> Prop :=
| reachable_new (now_ms : Z) :
    reachable (new_Blockchain SHA256 encode now_ms)
| reachable_submit (self : Blockchain) (address message signature : string)
    (star : Star) (now_ms seal_ms : Z) :
    reachable self ->
    reachable (fst (submitStar SHA256 verify encode self address message
                      signature star now_ms seal_ms))
| reachable_initialize (self : Blockchain) (now_ms : Z) :
    reachable self ->
    reachable (initializeChain SHA256 encode self now_ms).

(** The payload of a Record is the encoding of a claim. *)
Definition holds_claim (b : Block) : Prop :=
  exists star owner, body b = encode (DataClaim star owner).

(** The first Record is the genesis Record and every later one is a
    claim. *)
Definition genesis_then_claims (self : Blockchain) : Prop :=
  exists g rest,
    chain self = g :: rest
    /\ body g = encode (DataString genesis_text)
    /\ Forall holds_claim rest.

End Api.

(** No code unit of the text is a colon. *)
Definition colon_free (s : string) : Prop :=
  Forall (fun c => c <> colon) (list_ascii_of_string s).

(** The Records a list of blocks has, with those whose own validation does
    not answer [true] kept and turned into error entries. *)
Definition self_invalid_entries (validate : Block -> Completion bool)
    (blocks : list Block) : list ErrorEntry :=
  flat_map (fun b => match validate b with
                     | Normal true => []
                     | _ => [error_entry b]
                     end) blocks.

(** ** The HTTP controller ([BlockchainController.js]) *)

(** What a handler hands to [res.json] or [res.send]. *)
Inductive Sent (Star : Type) : Type :=
| SentBlock (b : Block)
| SentStars (stars : list Star)
| SentJson (s : string)
| SentText (s : string)
| SentVal (v : Val).
Arguments SentBlock {Star} b.
Arguments SentStars {Star} stars.
Arguments SentJson {Star} s.
Arguments SentText {Star} s.
Arguments SentVal {Star} v.

(** [res.status(code)] followed by [json] or [send]. *)
Record Response (Star : Type) : Type := mkResponse {
  status : Z;
  sent : Sent Star
}.
Arguments mkResponse {Star} status sent.
Arguments status {Star} r.
Arguments sent {Star} r.

(** Truthiness of a string: every string but the empty one. *)
Definition truthy (s : string) : bool :=
  negb (String.eqb s EmptyString).

(** Truthiness of a property of the request body that is text when
    present; [None] is [undefined]. *)
Definition truthy_field (field : option string) : bool :=
  match field with
  | Some s => truthy s
  | None => false
  end.

(** The text of a body property used after the truthiness test. *)
Definition field_text (field : option string) : string :=
  match field with
  | Some s => s
  | None => EmptyString
  end.

(** A number as a primitive value. *)
Definition number_val (n : number) : Val :=
  match n with
  | Some z => VNum z
  | None => VNaN
  end.

Section Controller.

Context {Star : Type}.
Variable SHA256 : string -> string.
Variable verify : string -> string -> string -> Completion bool.
Variable encode : BData Star -> string.
Variable getBData : Block -> Completion (BData Star).

(** Truthiness of the [star] property of a request body. *)
Variable star_truthy : Star -> bool.

(** The handler of [GET /block/height/:height].  A handler that is left
    waiting on a pending promise sends nothing: [None]. *)
Definition getBlockByHeight_endpoint (blockchain : Blockchain) (reqHeight : string)
  : option (Response Star) :=
  if truthy reqHeight then
    let height := parseInt reqHeight in
    match getBlockByHeight blockchain (number_val height) with
    | Resolved (Some block) => Some (mkResponse 200 (SentBlock block))
    | Resolved None => Some (mkResponse 404 (SentText "Block Not Found!"%string))
    | Rejected _ => None
    | Pending => None
    end
  else
    Some (mkResponse 404 (SentText "Block Not Found! Review the Parameters!"%string)).

(** The handler of [POST /requestValidation]. *)
Definition requestOwnership_endpoint (address : option string) (now_ms : Z)
  : option (Response Star) :=
  if truthy_field address then
    match requestMessageOwnershipVerification (field_text address) now_ms with
    | Resolved message =>
        if truthy message then Some (mkResponse 200 (SentJson message))
        else Some (mkResponse 500 (SentText "An error happened!"%string))
    | Rejected _ => None
    | Pending => None
    end
  else Some (mkResponse 400 (SentText "Check the Body Parameter!"%string)).

(** The handler of [POST /submitstar].  The resolved value is a Block
    object, which is truthy; a rejection is caught and its value sent. *)
Definition submitStar_endpoint (blockchain : Blockchain)
    (address message signature : option string) (star : option Star)
    (now_ms seal_ms : Z)
  : Blockchain * option (Response Star) :=
  match star with
  | Some star_value =>
      if truthy_field address && truthy_field message && truthy_field signature
         && star_truthy star_value
      then
        match submitStar SHA256 verify encode blockchain (field_text address)
                (field_text message) (field_text signature) star_value
                now_ms seal_ms with
        | (blockchain', Resolved block) =>
            (blockchain', Some (mkResponse 200 (SentBlock block)))
        | (blockchain', Rejected error) =>
            (blockchain', Some (mkResponse 500 (SentVal error)))
        | (blockchain', Pending) => (blockchain', None)
        end
      else
        (blockchain, Some (mkResponse 400 (SentText "Check the Body Parameter!"%string)))
  | None =>
      (blockchain, Some (mkResponse 400 (SentText "Check the Body Parameter!"%string)))
  end.

(** The handler of [GET /block/hash/:hash]. *)
Definition getBlockByHash_endpoint (blockchain : Blockchain) (hash_param : string)
  : option (Response Star) :=
  if truthy hash_param then
    match getBlockByHash blockchain (VStr hash_param) with
    | Resolved (Some block) => Some (mkResponse 200 (SentBlock block))
    | Resolved None => Some (mkResponse 404 (SentText "Block Not Found!"%string))
    | Rejected _ => None
    | Pending => None
    end
  else
    Some (mkResponse 400 (SentText "Block Not Found! Review the Parameters!"%string)).

(** The handler of [GET /blocks/:address].  An array, even an empty one, is
    truthy; a rejection is caught. *)
Definition getStarsByOwner_endpoint (blockchain : Blockchain) (address : string)
  : option (Response Star) :=
  if truthy address then
    match getStarsByWalletAddress getBData blockchain address with
    | Resolved stars => Some (mkResponse 200 (SentStars stars))
    | Rejected _ => Some (mkResponse 500 (SentText "An error happened!"%string))
    | Pending => None
    end
  else
    Some (mkResponse 400 (SentText "Block Not Found! Review the Parameters!"%string)).

End Controller.

(** * Properties *)

(** ** Array indexing *)

Lemma at_index_nat {A : Type} (xs : list A) (i : nat) :
  at_index xs (Z.of_nat i) = nth_error xs i.
Proof.
  unfold at_index.
  destruct (Z.ltb_spec (Z.of_nat i) 0) as [Hneg | _]; [lia | ].
  now rewrite Nat2Z.id.
Qed.

Lemma at_index_before_first {A : Type} (xs : list A) :
  at_index xs (0 - 1) = None.
Proof. reflexivity. Qed.

Lemma at_index_pred {A : Type} (xs : list A) (i : nat) :
  at_index xs (Z.of_nat (S i) - 1) = nth_error xs i.
Proof.
  replace (Z.of_nat (S i) - 1) with (Z.of_nat i) by lia.
  apply at_index_nat.
Qed.

Lemma at_index_tail {A : Type} (xs : list A) (x : A) :
  at_index (xs ++ [x]) (Z.of_nat (List.length (xs ++ [x])) - 1) = Some x.
Proof.
  rewrite length_app. simpl List.length.
  replace (Z.of_nat (List.length xs + 1) - 1) with (Z.of_nat (List.length xs)) by lia.
  rewrite at_index_nat, nth_error_app2 by lia.
  now rewrite Nat.sub_diag.
Qed.

Lemma at_index_last_nonempty {A : Type} (xs : list A) :
  xs <> [] ->
  exists x, at_index xs (Z.of_nat (List.length xs) - 1) = Some x.
Proof.
  intros Hne.
  destruct (exists_last Hne) as (front & x & ->).
  exists x. apply at_index_tail.
Qed.

Lemma nth_error_snoc {A : Type} (xs : list A) (x y : A) (i : nat) :
  nth_error (xs ++ [x]) i = Some y ->
  (i < List.length xs)%nat /\ nth_error xs i = Some y
  \/ i = List.length xs /\ y = x.
Proof.
  intros H.
  destruct (Nat.lt_ge_cases i (List.length xs)) as [Hlt | Hge].
  - left. split; [exact Hlt | ]. now rewrite nth_error_app1 in H.
  - right. rewrite nth_error_app2 in H by exact Hge.
    destruct (i - List.length xs)%nat as [ | k] eqn:Hk.
    + simpl in H. split; [lia | congruence].
    + simpl in H. destruct k; discriminate.
Qed.

(** ** Sealing and linking *)

Section Sealing.

Context {Star : Type}.
Variable SHA256 : string -> string.
Variable encode : BData Star -> string.

Lemma seal_result (self : Blockchain) (h : Z) (block : Block) (now_ms : Z) :
  exists sealed,
    seal SHA256 self h block now_ms
      = (mkBlockchain (chain self ++ [sealed]) h, Normal sealed)
    /\ height sealed = height block
    /\ body sealed = body block
    /\ previousBlockHash sealed = previousBlockHash block
    /\ time sealed = VStr (epoch_seconds_text now_ms)
    /\ hash sealed
       = Some (SHA256 (JSON_stringify
                         (set_time (VStr (epoch_seconds_text now_ms)) block))).
Proof.
  eexists. split; [reflexivity | ]. simpl. repeat split.
Qed.

(** What [_addBlock] does from a state that satisfies [linked]. *)
Lemma addBlock_linked (self : Blockchain) (data : BData Star) (now_ms : Z) :
  linked self ->
  exists sealed,
    _addBlock SHA256 self (new_Block encode data) now_ms
      = (mkBlockchain (chain self ++ [sealed])
           (Z.of_nat (List.length (chain self)) + 1), Normal sealed)
    /\ height sealed = Z.of_nat (List.length (chain self)) + 1
    /\ body sealed = encode data
    /\ time sealed = VStr (epoch_seconds_text now_ms)
    /\ previousBlockHash sealed
       = match at_index (chain self) (Z.of_nat (List.length (chain self)) - 1) with
         | Some tail => hash tail
         | None => None
         end
    /\ hash sealed
       = Some (SHA256 (digest_input (height sealed) (body sealed) (time sealed)
                         (previousBlockHash sealed))).
Proof.
  intros (Hh & _ & _).
  unfold _addBlock, seal.
  destruct (chain self) as [ | b0 rest] eqn:Hc.
  - rewrite Hh. simpl.
    eexists. split; [reflexivity | ]. simpl. repeat split.
  - assert (Hne : b0 :: rest <> []) by discriminate.
    destruct (at_index_last_nonempty _ Hne) as (tail & Htail).
    rewrite Hh.
    destruct (Z.eqb_spec (Z.of_nat (List.length (b0 :: rest))) (-1)) as [Habs | _];
      [lia | ].
    rewrite Htail.
    eexists. split; [reflexivity | ]. simpl. repeat split.
Qed.

Lemma addBlock_preserves_linked (self : Blockchain) (data : BData Star) (now_ms : Z) :
  linked self ->
  linked (fst (_addBlock SHA256 self (new_Block encode data) now_ms)).
Proof.
  intros Hl.
  destruct (addBlock_linked self data now_ms Hl)
    as (sealed & Heq & Hheight & _ & _ & Hprev & Hhash).
  rewrite Heq. simpl fst.
  destruct Hl as (Hh & Hblocks & Hlinks).
  unfold linked. simpl chain. simpl chain_height.
  split; [ | split].
  - rewrite length_app. simpl.
    destruct (chain self ++ [sealed]) eqn:Happ.
    + destruct (chain self); discriminate.
    + lia.
  - intros i b Hi.
    destruct (nth_error_snoc _ _ _ _ Hi) as [(_ & Hin) | (-> & ->)].
    + now apply Hblocks.
    + split; [exact Hheight | ]. split; [rewrite Hhash; discriminate | ].
      rewrite Hprev.
      destruct (chain self) as [ | b0 rest] eqn:Hc.
      * simpl. tauto.
      * assert (Hne : b0 :: rest <> []) by discriminate.
        destruct (at_index_last_nonempty _ Hne) as (tail & Htail).
        rewrite Htail.
        assert (Htl : nth_error (b0 :: rest) (List.length rest) = Some tail).
        { rewrite <- at_index_nat. rewrite <- Htail. f_equal. simpl List.length. lia. }
        destruct (Hblocks _ _ Htl) as (_ & Hsome & _).
        split; [intros Habs; contradiction | discriminate].
  - intros i p b Hp Hb.
    destruct (nth_error_snoc _ _ _ _ Hb) as [(Hlt & Hin) | (Hi & ->)].
    + rewrite nth_error_app1 in Hp by lia. now apply (Hlinks i).
    + rewrite nth_error_app1 in Hp by lia.
      rewrite Hprev.
      replace (Z.of_nat (List.length (chain self)) - 1) with (Z.of_nat i) by lia.
      now rewrite at_index_nat, Hp.
Qed.

Lemma built_linked (self : Blockchain) :
  built SHA256 encode self -> linked self.
Proof.
  induction 1 as [ | self data now_ms _ IH].
  - unfold linked. simpl. split; [reflexivity | ].
    split; intros i; destruct i; discriminate.
  - now apply addBlock_preserves_linked.
Qed.

(** C2: in a chain built only by [_addBlock], every Record after the first
    carries the hash of the Record before it and a height one larger; the
    first Record has no predecessor hash and height 1, and no other Record
    has both. *)
Theorem addBlock_chain_linked (self : Blockchain) :
  built SHA256 encode self ->
  (forall i b p, (0 < i)%nat ->
     nth_error (chain self) i = Some b ->
     nth_error (chain self) (i - 1) = Some p ->
     previousBlockHash b = hash p /\ height b = height p + 1)
  /\ (forall g, nth_error (chain self) 0 = Some g ->
        previousBlockHash g = None /\ height g = 1)
  /\ (forall i b, nth_error (chain self) i = Some b ->
        previousBlockHash b = None /\ height b = 1 -> i = 0%nat).
Proof.
  intros Hb. destruct (built_linked self Hb) as (_ & Hblocks & Hlinks).
  split; [ | split].
  - intros i b p Hpos Hi Hp.
    destruct i as [ | j]; [lia | ].
    replace (S j - 1)%nat with j in Hp by lia.
    split; [now apply (Hlinks j) | ].
    destruct (Hblocks _ _ Hi) as (Hhb & _).
    destruct (Hblocks _ _ Hp) as (Hhp & _).
    lia.
  - intros g Hg. destruct (Hblocks _ _ Hg) as (Hh & _ & Hprev).
    split; [now apply Hprev | exact Hh].
  - intros i b Hi (Hprev & _).
    destruct (Hblocks _ _ Hi) as (_ & _ & Hiff). now apply Hiff.
Qed.

End Sealing.

(** ** Construction and the digest *)

Section Construction.

Context {Star : Type}.
Variable SHA256 : string -> string.
Variable encode : BData Star -> string.

Lemma new_Blockchain_built (now_ms : Z) :
  built SHA256 encode (new_Blockchain SHA256 encode now_ms).
Proof.
  unfold new_Blockchain, initializeChain. simpl chain_height.
  change (-1 =? -1) with true. cbv iota.
  apply built_add, built_empty.
Qed.

Lemma initializeChain_noop (self : Blockchain) (now_ms : Z) :
  chain_height self <> -1 ->
  initializeChain SHA256 encode self now_ms = self.
Proof.
  intros Hh. unfold initializeChain.
  now destruct (Z.eqb_spec (chain_height self) (-1)).
Qed.

(** C8: a new ledger holds exactly one Record, with the genesis text as
    payload, height 1 and no predecessor hash; and [initializeChain] called
    on a ledger the class has built and whose chain is not empty changes
    nothing. *)
Theorem initializeChain_genesis_once :
  (forall now_ms, exists g,
      new_Blockchain SHA256 encode now_ms = mkBlockchain [g] 1
      /\ body g = encode (DataString genesis_text)
      /\ height g = 1
      /\ previousBlockHash g = None)
  /\ (forall self now_ms,
        built SHA256 encode self ->
        chain self <> [] ->
        initializeChain SHA256 encode self now_ms = self).
Proof.
  split.
  - intros now_ms. eexists. split; [reflexivity | ]. simpl. repeat split.
  - intros self now_ms Hb Hne.
    apply initializeChain_noop.
    destruct (built_linked SHA256 encode self Hb) as (Hh & _).
    rewrite Hh. destruct (chain self); [contradiction | simpl; lia].
Qed.


End Construction.

(** ** Decimal text of the clock *)

Lemma digits_rev_enough (f1 : nat) :
  forall (f2 : nat) (n : Z),
    0 <= n < 10 ^ Z.of_nat (S f1) ->
    n < 10 ^ Z.of_nat (S f2) ->
    digits_rev (S f1) n = digits_rev (S f2) n.
Proof.
  induction f1 as [ | f1 IH]; intros f2 n Hn1 Hn2.
  - simpl in Hn1. change (10 ^ 1) with 10 in Hn1.
    simpl. destruct (Z.ltb_spec n 10); [reflexivity | lia].
  - cbn [digits_rev]. destruct (Z.ltb_spec n 10) as [Hlt | Hge]; [reflexivity | ].
    f_equal.
    assert (H1 : n / 10 < 10 ^ Z.of_nat (S f1)).
    { apply Z.div_lt_upper_bound; [lia | ].
      rewrite <- Z.pow_succ_r by lia. rewrite <- Nat2Z.inj_succ. lia. }
    assert (H2 : n / 10 < 10 ^ Z.of_nat f2).
    { apply Z.div_lt_upper_bound; [lia | ].
      rewrite <- Z.pow_succ_r by lia. rewrite <- Nat2Z.inj_succ. lia. }
    assert (H0 : 1 <= n / 10) by (apply Z.div_le_lower_bound; lia).
    destruct f2 as [ | f2]; [simpl in H2; lia | ].
    apply IH; lia.
Qed.

Lemma digits_fuel_enough (n : Z) :
  0 <= n -> n < 10 ^ Z.of_nat (digits_fuel n).
Proof.
  intros Hn. unfold digits_fuel.
  rewrite Nat2Z.inj_succ, Z2Nat.id by apply Z.log2_nonneg.
  destruct (Z.eq_dec n 0) as [-> | Hnz].
  - simpl. lia.
  - assert (Hspec := Z.log2_spec n ltac:(lia)).
    apply Z.lt_le_trans with (2 ^ Z.succ (Z.log2 n)); [lia | ].
    apply Z.pow_le_mono_l. lia.
Qed.

Lemma nat_toString_fuel (f : nat) (n : Z) :
  0 <= n < 10 ^ Z.of_nat (S f) ->
  nat_toString n = string_of_list_ascii (rev (digits_rev (S f) n)).
Proof.
  intros Hn. unfold nat_toString. do 2 f_equal.
  unfold digits_fuel at 1.
  symmetry. apply digits_rev_enough; [exact Hn | ].
  apply (digits_fuel_enough n). lia.
Qed.

Lemma digits_rev_step (f : nat) (n : Z) :
  10 <= n ->
  digits_rev (S f) n = digit_char (n mod 10) :: digits_rev f (n / 10).
Proof.
  intros Hn. cbn [digits_rev]. destruct (Z.ltb_spec n 10); [lia | reflexivity].
Qed.

Lemma slice_to_neg_snoc3 (front : list ascii) (a b c : ascii) :
  slice_to_neg (string_of_list_ascii (front ++ [a; b; c])) 3
  = string_of_list_ascii front.
Proof.
  unfold slice_to_neg. rewrite list_ascii_of_string_of_list_ascii.
  f_equal. rewrite length_app. simpl List.length.
  replace (List.length front + 3 - 3)%nat with (List.length front + 0)%nat by lia.
  rewrite firstn_app_2. simpl. apply app_nil_r.
Qed.

(** Dropping the last three digits of the millisecond clock leaves the
    numeral of the whole seconds. *)
Lemma epoch_seconds_text_numeral (now_ms : Z) :
  1000 <= now_ms ->
  epoch_seconds_text now_ms = toString (now_ms / 1000).
Proof.
  intros Hn. unfold epoch_seconds_text, toString.
  destruct (Z.ltb_spec now_ms 0); [lia | ].
  assert (Hq : 1 <= now_ms / 1000) by (apply Z.div_le_lower_bound; lia).
  destruct (Z.ltb_spec (now_ms / 1000) 0); [lia | ].
  set (f := Z.to_nat (Z.log2 now_ms)).
  assert (Hf : now_ms < 10 ^ Z.of_nat (S f)) by (apply (digits_fuel_enough now_ms); lia).
  assert (H10 : 100 <= now_ms / 10) by (apply Z.div_le_lower_bound; lia).
  assert (H100 : 10 <= now_ms / 10 / 10) by (apply Z.div_le_lower_bound; lia).
  assert (Hdiv : now_ms / 10 / 10 / 10 = now_ms / 1000).
  { rewrite !Z.div_div by lia. reflexivity. }
  assert (Hlt : forall k m, 0 <= m -> m < 10 ^ Z.of_nat (S k) -> m / 10 < 10 ^ Z.of_nat k).
  { intros k m Hm Hk. apply Z.div_lt_upper_bound; [lia | ].
    rewrite <- Z.pow_succ_r by lia. rewrite <- Nat2Z.inj_succ. exact Hk. }
  destruct f as [ | [ | [ | f']]] eqn:Hfeq.
  - simpl in Hf. lia.
  - apply Hlt in Hf; [ | lia]. simpl in Hf. lia.
  - apply Hlt in Hf; [ | lia]. apply Hlt in Hf; [ | lia]. simpl in Hf. lia.
  - rewrite (nat_toString_fuel (S (S (S f'))) now_ms) by lia.
    rewrite (digits_rev_step _ now_ms) by lia.
    rewrite (digits_rev_step _ (now_ms / 10)) by lia.
    rewrite (digits_rev_step _ (now_ms / 10 / 10)) by lia.
    rewrite Hdiv.
    cbn [rev]. rewrite <- !app_assoc. cbn [app].
    rewrite slice_to_neg_snoc3.
    symmetry. apply nat_toString_fuel.
    split; [lia | ].
    rewrite <- Hdiv.
    apply Hlt; [lia | ]. apply Hlt; [lia | ]. apply Hlt; [lia | ]. exact Hf.
Qed.

(** ** [parseInt] reads a numeral back *)

Ltac digit_cases H :=
  let d := fresh "d" in
  let Hd := fresh "Hd" in
  let Ha := fresh "Ha" in
  destruct H as (d & Hd & Ha);
  assert (d = 0 \/ d = 1 \/ d = 2 \/ d = 3 \/ d = 4 \/ d = 5 \/ d = 6
          \/ d = 7 \/ d = 8 \/ d = 9) as Hcases by lia;
  repeat (destruct Hcases as [Hcases | Hcases]);
  subst d; subst.

Lemma digit_value_digit_char (d : Z) :
  0 <= d < 10 -> digit_value 10 (digit_char d) = Some d.
Proof.
  intros Hd.
  assert (d = 0 \/ d = 1 \/ d = 2 \/ d = 3 \/ d = 4 \/ d = 5 \/ d = 6
          \/ d = 7 \/ d = 8 \/ d = 9) as Hcases by lia.
  repeat (destruct Hcases as [Hcases | Hcases]); subst d; reflexivity.
Qed.

Lemma parse_digits_snoc (front : list ascii) (d : Z) :
  0 <= d < 10 ->
  Forall is_digit_char front ->
  forall acc,
    parse_digits 10 (string_of_list_ascii (front ++ [digit_char d])) acc
    = Some (match parse_digits 10 (string_of_list_ascii front) acc with
            | Some a => a * 10 + d
            | None => d
            end).
Proof.
  intros Hd Hall. induction Hall as [ | c front Hc _ IH]; intros acc.
  - simpl. now rewrite digit_value_digit_char.
  - simpl. destruct Hc as (dc & Hdc & ->).
    rewrite digit_value_digit_char by exact Hdc. apply IH.
Qed.

Lemma digits_rev_digits (f : nat) :
  forall n, 0 <= n -> Forall is_digit_char (digits_rev f n).
Proof.
  induction f as [ | f IH]; intros n Hn; [constructor | ].
  cbn [digits_rev]. destruct (Z.ltb_spec n 10).
  - constructor; [ | constructor]. exists n. split; [lia | reflexivity].
  - constructor.
    + exists (n mod 10). split; [ | reflexivity].
      apply Z.mod_pos_bound. lia.
    + apply IH. apply Z.div_pos; lia.
Qed.

Lemma digits_rev_small (f : nat) (n : Z) :
  n < 10 -> digits_rev (S f) n = [digit_char n].
Proof.
  intros Hn. cbn [digits_rev]. destruct (Z.ltb_spec n 10); [reflexivity | lia].
Qed.

Lemma parse_digits_numeral (f : nat) :
  forall n, 0 <= n < 10 ^ Z.of_nat (S f) ->
    parse_digits 10 (string_of_list_ascii (rev (digits_rev (S f) n))) None = Some n.
Proof.
  induction f as [ | f IH]; intros n Hn.
  - change (10 ^ Z.of_nat 1) with 10 in Hn.
    rewrite digits_rev_small by lia.
    simpl. now rewrite digit_value_digit_char.
  - destruct (Z.lt_ge_cases n 10) as [Hlt | Hge].
    + rewrite digits_rev_small by lia.
      simpl. now rewrite digit_value_digit_char by lia.
    + assert (Hq : 0 <= n / 10 < 10 ^ Z.of_nat (S f)).
      { split; [apply Z.div_pos; lia | ].
        apply Z.div_lt_upper_bound; [lia | ].
        rewrite <- Z.pow_succ_r by lia. rewrite <- Nat2Z.inj_succ. lia. }
      rewrite digits_rev_step by lia.
      cbn [rev].
      rewrite parse_digits_snoc.
      * rewrite (IH (n / 10) Hq). f_equal.
        rewrite (Z.div_mod n 10) at 3 by lia. lia.
      * apply Z.mod_pos_bound. lia.
      * apply Forall_rev. apply digits_rev_digits. lia.
Qed.

Lemma parseInt_digits (c : ascii) (rest : list ascii) :
  Forall is_digit_char (c :: rest) ->
  parseInt (string_of_list_ascii (c :: rest))
  = parse_digits 10 (string_of_list_ascii (c :: rest)) None.
Proof.
  intros Hall. inversion Hall as [ | c' rest' Hc Hrest]; subst.
  unfold parseInt.
  assert (Htrim : trim_start (string_of_list_ascii (c :: rest))
                  = string_of_list_ascii (c :: rest)).
  { digit_cases Hc; reflexivity. }
  rewrite Htrim.
  assert (Hsign : strip_sign (string_of_list_ascii (c :: rest))
                  = (1, string_of_list_ascii (c :: rest))).
  { digit_cases Hc; reflexivity. }
  rewrite Hsign.
  assert (Hhex : strip_hex_prefix (string_of_list_ascii (c :: rest))
                 = (10, string_of_list_ascii (c :: rest))).
  { destruct rest as [ | c2 rest2].
    - digit_cases Hc; reflexivity.
    - inversion Hrest as [ | c2' rest2' Hc2 _]; subst.
      digit_cases Hc; try reflexivity.
      digit_cases Hc2; reflexivity. }
  rewrite Hhex.
  destruct (parse_digits 10 (string_of_list_ascii (c :: rest)) None) as [m | ];
    [ | reflexivity].
  f_equal. lia.
Qed.

Lemma parseInt_toString (n : Z) :
  0 <= n -> parseInt (toString n) = Some n.
Proof.
  intros Hn. unfold toString. destruct (Z.ltb_spec n 0); [lia | ].
  set (f := Z.to_nat (Z.log2 n)).
  assert (Hf : 0 <= n < 10 ^ Z.of_nat (S f)).
  { split; [exact Hn | apply (digits_fuel_enough n Hn)]. }
  rewrite (nat_toString_fuel f n Hf).
  assert (Hall : Forall is_digit_char (rev (digits_rev (S f) n))).
  { apply Forall_rev, digits_rev_digits, Hn. }
  assert (Hparse := parse_digits_numeral f n Hf).
  destruct (rev (digits_rev (S f) n)) as [ | c rest].
  - discriminate Hparse.
  - rewrite parseInt_digits by exact Hall. exact Hparse.
Qed.

(** The clock of [submitStar], in whole seconds. *)
Lemma currentTime_seconds (now_ms : Z) :
  1000 <= now_ms ->
  parseInt (epoch_seconds_text now_ms) = Some (now_ms / 1000).
Proof.
  intros Hn. rewrite epoch_seconds_text_numeral by exact Hn.
  apply parseInt_toString. apply Z.div_pos; lia.
Qed.

(** The test of [submitStar] compares the elapsed seconds with 30000. *)
Lemma within_window_elapsed (message : string) (now_ms stamp : Z) :
  1000 <= now_ms ->
  parseInt_field (nth_error (split colon message) 1) = Some stamp ->
  within_window message now_ms = (now_ms / 1000 - stamp <? FIVE_MINUTES_UTC).
Proof.
  intros Hn Hstamp. unfold within_window.
  now rewrite Hstamp, currentTime_seconds.
Qed.

(** ** Submitting a claim *)

Section Submission.

Context {Star : Type}.
Variable SHA256 : string -> string.
Variable verify : string -> string -> string -> Completion bool.
Variable encode : BData Star -> string.

(** C1: a claim whose challenge is 300 seconds old or older, but younger
    than 30000 seconds, and whose signature verifies, is accepted: the
    promise resolves with a new Record, which is appended to the chain. *)
Theorem submitStar_accepts_beyond_five_minutes
    (self : Blockchain) (address message signature : string) (star : Star)
    (now_ms seal_ms stamp : Z) :
  built SHA256 encode self ->
  1000 <= now_ms ->
  parseInt_field (nth_error (split colon message) 1) = Some stamp ->
  300 <= now_ms / 1000 - stamp < FIVE_MINUTES_UTC ->
  verify message address signature = Normal true ->
  exists block,
    submitStar SHA256 verify encode self address message signature star
      now_ms seal_ms
    = (mkBlockchain (chain self ++ [block])
         (Z.of_nat (List.length (chain self)) + 1), Resolved block)
    /\ body block = encode (DataClaim star address).
Proof.
  intros Hb Hn Hstamp Helapsed Hverify.
  unfold submitStar.
  rewrite (within_window_elapsed message now_ms stamp Hn Hstamp).
  destruct (Z.ltb_spec (now_ms / 1000 - stamp) FIVE_MINUTES_UTC); [ | lia].
  rewrite Hverify.
  destruct (addBlock_linked SHA256 encode self (DataClaim star address) seal_ms
              (built_linked SHA256 encode self Hb))
    as (block & Heq & _ & Hbody & _).
  rewrite Heq. exists block. split; [reflexivity | exact Hbody].
Qed.

(** C4: a rejection of [submitStar] leaves the ledger as it was and carries
    the value [null], and that is the outcome both when the test on the
    elapsed time fails (whatever the signature) and when the signature does
    not verify. *)
Theorem submitStar_rejects_uniformly
    (self : Blockchain) (address message signature : string) (star : Star)
    (now_ms seal_ms : Z) :
  (forall self' reason,
      submitStar SHA256 verify encode self address message signature star
        now_ms seal_ms = (self', Rejected reason) ->
      self' = self /\ reason = VNull)
  /\ (within_window message now_ms = false ->
      submitStar SHA256 verify encode self address message signature star
        now_ms seal_ms = (self, Rejected VNull))
  /\ (forall stamp,
        1000 <= now_ms ->
        parseInt_field (nth_error (split colon message) 1) = Some stamp ->
        FIVE_MINUTES_UTC <= now_ms / 1000 - stamp ->
        submitStar SHA256 verify encode self address message signature star
          now_ms seal_ms = (self, Rejected VNull))
  /\ (within_window message now_ms = true ->
      verify message address signature = Normal false ->
      submitStar SHA256 verify encode self address message signature star
        now_ms seal_ms = (self, Rejected VNull)).
Proof.
  split; [ | split; [ | split]].
  - intros self' reason. unfold submitStar.
    destruct (within_window message now_ms).
    + destruct (verify message address signature) as [[ | ] | ].
      * destruct (_addBlock SHA256 self (new_Block encode (DataClaim star address))
                    seal_ms) as (st & [blk | ]); discriminate.
      * intros H. injection H as <- <-. split; reflexivity.
      * discriminate.
    + intros H. injection H as <- <-. split; reflexivity.
  - intros Hw. unfold submitStar. now rewrite Hw.
  - intros stamp Hn Hstamp Hlate. unfold submitStar.
    rewrite (within_window_elapsed message now_ms stamp Hn Hstamp).
    destruct (Z.ltb_spec (now_ms / 1000 - stamp) FIVE_MINUTES_UTC); [lia | reflexivity].
  - intros Hw Hv. unfold submitStar. now rewrite Hw, Hv.
Qed.

(** C7: the time stored by [_addBlock] is text, the millisecond clock
    without its last three characters; from one second after the epoch on
    it is the decimal numeral of the whole seconds since the epoch, which
    [parseInt] reads back as that integer. *)
Theorem sealed_time_is_seconds_text
    (self self' : Blockchain) (block sealed : Block) (now_ms : Z) :
  _addBlock SHA256 self block now_ms = (self', Normal sealed) ->
  time sealed = VStr (epoch_seconds_text now_ms)
  /\ (1000 <= now_ms ->
      time sealed = VStr (toString (now_ms / 1000))
      /\ parseInt (toString (now_ms / 1000)) = Some (now_ms / 1000)).
Proof.
  intros Hadd.
  assert (Ht : time sealed = VStr (epoch_seconds_text now_ms)).
  { unfold _addBlock, seal in Hadd.
    destruct (chain_height self =? -1).
    - injection Hadd as _ <-. reflexivity.
    - destruct (at_index (chain self) (Z.of_nat (List.length (chain self)) - 1));
        [ | discriminate].
      injection Hadd as _ <-. reflexivity. }
  split; [exact Ht | ].
  intros Hn. split.
  - now rewrite Ht, epoch_seconds_text_numeral.
  - apply parseInt_toString. apply Z.div_pos; lia.
Qed.

End Submission.

(** ** Lookups *)

Lemma strict_eq_nullable (o : option string) (v : Val) :
  strict_eq (nullable o) v = true <-> nullable o = v.
Proof.
  destruct o as [s | ], v as [ | | n | t]; simpl; split; intros H;
    try discriminate; try reflexivity.
  - apply String.eqb_eq in H. now subst.
  - injection H as ->. apply String.eqb_refl.
Qed.

Lemma strict_eq_num (n : Z) (v : Val) :
  strict_eq (VNum n) v = true <-> VNum n = v.
Proof.
  destruct v as [ | | m | t]; simpl; split; intros H; try discriminate.
  - apply Z.eqb_eq in H. now subst.
  - injection H as ->. apply Z.eqb_refl.
Qed.

(** [find] returns the first element that satisfies the test. *)
Lemma find_first {A : Type} (test : A -> bool) (xs : list A) :
  match find test xs with
  | Some x =>
      exists i, nth_error xs i = Some x /\ test x = true
                /\ forall j y, (j < i)%nat -> nth_error xs j = Some y -> test y = false
  | None => forall j y, nth_error xs j = Some y -> test y = false
  end.
Proof.
  induction xs as [ | x xs IH]; simpl.
  - intros j y Hj. destruct j; discriminate.
  - destruct (test x) eqn:Hx.
    + exists 0%nat. split; [reflexivity | ]. split; [exact Hx | ]. intros j y Hj. lia.
    + destruct (find test xs) as [z | ].
      * destruct IH as (i & Hi & Hz & Hbefore).
        exists (S i). split; [exact Hi | ]. split; [exact Hz | ].
        intros [ | j] y Hj Hy.
        -- simpl in Hy. injection Hy as <-. exact Hx.
        -- simpl in Hy. apply (Hbefore j); [lia | exact Hy].
      * intros [ | j] y Hy.
        -- simpl in Hy. injection Hy as <-. exact Hx.
        -- simpl in Hy. now apply (IH j).
Qed.

(** C9: each lookup resolves, with the first Record of the chain whose hash
    (for [getBlockByHeight], whose height field) is the argument, or with
    [null] when no Record of the chain has it. *)
Theorem getBlock_first_match_or_null (self : Blockchain) (key : Val) :
  (exists found,
      getBlockByHash self key = Resolved found
      /\ match found with
         | Some b =>
             exists i, nth_error (chain self) i = Some b
                       /\ nullable (hash b) = key
                       /\ forall j b', (j < i)%nat ->
                            nth_error (chain self) j = Some b' ->
                            nullable (hash b') <> key
         | None =>
             forall j b', nth_error (chain self) j = Some b' ->
                          nullable (hash b') <> key
         end)
  /\ (exists found,
        getBlockByHeight self key = Resolved found
        /\ match found with
           | Some b =>
               exists i, nth_error (chain self) i = Some b
                         /\ VNum (height b) = key
                         /\ forall j b', (j < i)%nat ->
                              nth_error (chain self) j = Some b' ->
                              VNum (height b') <> key
           | None =>
               forall j b', nth_error (chain self) j = Some b' ->
                            VNum (height b') <> key
           end).
Proof.
  split.
  - eexists. split; [reflexivity | ].
    pose proof (find_first (fun b => strict_eq (nullable (hash b)) key) (chain self))
      as Hfind.
    destruct (find _ (chain self)) as [b | ].
    + destruct Hfind as (i & Hi & Hb & Hbefore).
      exists i. split; [exact Hi | ]. split; [now apply strict_eq_nullable | ].
      intros j b' Hj Hb' Heq. apply strict_eq_nullable in Heq.
      rewrite (Hbefore j b' Hj Hb') in Heq. discriminate.
    + intros j b' Hb' Heq. apply strict_eq_nullable in Heq.
      rewrite (Hfind j b' Hb') in Heq. discriminate.
  - eexists. split; [reflexivity | ].
    pose proof (find_first (fun b => strict_eq (VNum (height b)) key) (chain self))
      as Hfind.
    destruct (find _ (chain self)) as [b | ].
    + destruct Hfind as (i & Hi & Hb & Hbefore).
      exists i. split; [exact Hi | ]. split; [now apply strict_eq_num | ].
      intros j b' Hj Hb' Heq. apply strict_eq_num in Heq.
      rewrite (Hbefore j b' Hj Hb') in Heq. discriminate.
    + intros j b' Hb' Heq. apply strict_eq_num in Heq.
      rewrite (Hfind j b' Hb') in Heq. discriminate.
Qed.

(** ** Stars of an owner *)

Section Stars.

Context {Star : Type}.
Variable getBData : Block -> Completion (BData Star).

Lemma collect_stars_owned (address : string) (payloads : list (BData Star)) :
  forall (blocks : list Block) (stars : list Star),
    map getBData blocks = map Normal payloads ->
    collect_stars getBData blocks address stars
    = Normal (stars ++ owned_stars address payloads).
Proof.
  induction payloads as [ | d payloads IH]; intros blocks stars Hdec.
  - destruct blocks; [ | discriminate]. simpl. now rewrite app_nil_r.
  - destruct blocks as [ | b blocks]; [discriminate | ].
    simpl in Hdec. injection Hdec as Hb Hrest.
    simpl. rewrite Hb.
    destruct d as [text | star owner].
    + now rewrite (IH blocks stars Hrest).
    + destruct (String.eqb owner address).
      * rewrite (IH blocks _ Hrest). now rewrite <- app_assoc.
      * now rewrite (IH blocks stars Hrest).
Qed.


End Stars.

(** ** Validation of the chain *)

Section Validation.

Variable validate : Block -> Completion bool.

Lemma validate_iteration_appends (self : Blockchain) (errorLog : list ErrorEntry)
    (i : nat) :
  validate_iteration validate self errorLog i
  = errorLog ++ entries_at validate self i.
Proof.
  unfold validate_iteration, entries_at. rewrite at_index_nat.
  destruct (nth_error (chain self) i) as [b | ]; [ | now rewrite app_nil_r].
  destruct (check_block validate self (Z.of_nat i) b) as [[ | ] | ];
    [now rewrite app_nil_r | reflexivity | reflexivity].
Qed.

Lemma validate_loop_accumulates (self : Blockchain) (indices : list nat) :
  forall errorLog,
    fold_left (validate_iteration validate self) indices errorLog
    = errorLog ++ flat_map (entries_at validate self) indices.
Proof.
  induction indices as [ | i indices IH]; intros errorLog; simpl.
  - now rewrite app_nil_r.
  - now rewrite IH, validate_iteration_appends, <- app_assoc.
Qed.

Lemma genesis_test (b : Block) :
  strict_eq (nullable (previousBlockHash b)) VNull && (height b =? 1) = true
  <-> genesis_shaped b.
Proof.
  unfold genesis_shaped. rewrite andb_true_iff, Z.eqb_eq.
  destruct (previousBlockHash b); simpl; split; intros (H1 & H2);
    try discriminate; split; auto.
Qed.

Lemma link_test (b p : Block) :
  negb (strict_eq (nullable (previousBlockHash b)) (nullable (hash p)))
  || negb (height b =? height p + 1) = false
  <-> previousBlockHash b = hash p /\ height b = height p + 1.
Proof.
  rewrite orb_false_iff, !negb_false_iff, Z.eqb_eq, strict_eq_nullable.
  split; intros (H1 & H2); split; auto.
  - destruct (previousBlockHash b), (hash p); simpl in H1; congruence.
  - now rewrite H1.
Qed.

(** The body of the loop leaves [valid] true exactly on sound Records. *)
Lemma check_block_sound (self : Blockchain) (i : nat) (b : Block) :
  check_block validate self (Z.of_nat i) b = Normal true
  <-> record_sound validate self i b.
Proof.
  unfold check_block, record_sound.
  destruct (validate b) as [[ | ] | ];
    [ | split; [discriminate | intros (H & _); discriminate]
      | split; [discriminate | intros (H & _); discriminate]].
  destruct (strict_eq (nullable (previousBlockHash b)) VNull && (height b =? 1))
    eqn:Hgen.
  - apply genesis_test in Hgen. split; auto.
  - assert (Hnot : ~ genesis_shaped b).
    { intros Hg. apply genesis_test in Hg. congruence. }
    destruct i as [ | j].
    + rewrite at_index_before_first. split; [discriminate | ].
      intros (_ & [Hg | (p & Hpos & _)]); [contradiction | lia].
    + rewrite at_index_pred. replace (S j - 1)%nat with j by lia.
      destruct (nth_error (chain self) j) as [p | ].
      * destruct (negb (strict_eq (nullable (previousBlockHash b)) (nullable (hash p)))
                  || negb (height b =? height p + 1)) eqn:Hlink.
        -- split; [discriminate | ].
           intros (_ & [Hg | (p' & _ & Hp' & Hprev & Hh)]); [contradiction | ].
           injection Hp' as <-.
           assert (Hfalse : negb (strict_eq (nullable (previousBlockHash b))
                                    (nullable (hash p)))
                            || negb (height b =? height p + 1) = false)
             by (apply link_test; auto).
           congruence.
        -- apply link_test in Hlink. split; [ | reflexivity].
           intros _. split; [reflexivity | ]. right. exists p.
           split; [lia | ]. split; [reflexivity | exact Hlink].
      * split; [discriminate | ].
        intros (_ & [Hg | (p & _ & Hp & _)]); [contradiction | discriminate].
Qed.

Lemma entries_at_sound (self : Blockchain) (i : nat) (b : Block) :
  nth_error (chain self) i = Some b ->
  (entries_at validate self i = [] <-> record_sound validate self i b)
  /\ (~ record_sound validate self i b ->
      entries_at validate self i = [error_entry b]).
Proof.
  intros Hi. unfold entries_at. rewrite Hi.
  pose proof (check_block_sound self i b) as Hs.
  destruct (check_block validate self (Z.of_nat i) b) as [[ | ] | ].
  - split; [split; [intros _; now apply Hs | reflexivity] | ].
    intros Hn. exfalso. apply Hn. now apply Hs.
  - split; [split; [discriminate | ] | reflexivity].
    intros H. apply Hs in H. discriminate.
  - split; [split; [discriminate | ] | reflexivity].
    intros H. apply Hs in H. discriminate.
Qed.

Lemma entries_in_log (self : Blockchain) (i : nat) (b : Block) (e : ErrorEntry) :
  nth_error (chain self) i = Some b ->
  In e (entries_at validate self i) ->
  In e (flat_map (entries_at validate self) (seq 0 (List.length (chain self)))).
Proof.
  intros Hi He. apply in_flat_map. exists i. split; [ | exact He].
  apply in_seq. split; [lia | ]. simpl.
  apply nth_error_Some. congruence.
Qed.


(** C10: a Record after the first that has no predecessor hash, height 1
    and an intact own hash contributes no entry, whatever the Record
    before it is. *)
Theorem validateChain_exempts_genesis_shape
    (self : Blockchain) (i : nat) (b : Block) :
  (0 < i)%nat ->
  nth_error (chain self) i = Some b ->
  previousBlockHash b = None ->
  height b = 1 ->
  validate b = Normal true ->
  check_block validate self (Z.of_nat i) b = Normal true
  /\ entries_at validate self i = []
  /\ (forall errorLog, validate_iteration validate self errorLog i = errorLog)
  /\ ((forall j e, j <> i -> ~ In e (entries_at validate self j)) ->
      validateChain validate self = Resolved []).
Proof.
  intros Hpos Hi Hprev Hh Hv.
  assert (Hcheck : check_block validate self (Z.of_nat i) b = Normal true).
  { unfold check_block. rewrite Hv, Hprev, Hh. reflexivity. }
  assert (He : entries_at validate self i = []).
  { unfold entries_at. now rewrite Hi, Hcheck. }
  split; [exact Hcheck | ]. split; [exact He | ]. split.
  - intros errorLog. now rewrite validate_iteration_appends, He, app_nil_r.
  - intros Hothers.
    unfold validateChain. rewrite validate_loop_accumulates. simpl. f_equal.
    destruct (flat_map (entries_at validate self) (seq 0 (List.length (chain self))))
      as [ | e es] eqn:Hlog; [reflexivity | ].
    exfalso.
    assert (Hin : In e (flat_map (entries_at validate self)
                          (seq 0 (List.length (chain self)))))
      by (rewrite Hlog; now left).
    apply in_flat_map in Hin. destruct Hin as (j & _ & Hje).
    destruct (Nat.eq_dec j i) as [-> | Hne].
    + rewrite He in Hje. contradiction.
    + exact (Hothers j e Hne Hje).
Qed.

End Validation.

(** ** Payloads of built chains decode *)

Section BuiltPayloads.

Context {Star : Type}.
Variable SHA256 : string -> string.
Variable encode : BData Star -> string.
Variable getBData : Block -> Completion (BData Star).

(** [getBData] undoes the constructor's encoding. *)
Hypothesis getBData_encode :
  forall b d, body b = encode d -> getBData b = Normal d.

Lemma built_bodies (self : Blockchain) :
  built SHA256 encode self ->
  exists payloads, map body (chain self) = map encode payloads.
Proof.
  induction 1 as [ | self data now_ms Hb (payloads & IH)].
  - now exists [].
  - destruct (addBlock_linked SHA256 encode self data now_ms
                (built_linked SHA256 encode self Hb))
      as (sealed & Heq & _ & Hbody & _).
    rewrite Heq. simpl. exists (payloads ++ [data]).
    rewrite !map_app, IH. simpl. now rewrite Hbody.
Qed.

Lemma built_stars (self : Blockchain) (address : string) :
  built SHA256 encode self ->
  exists payloads,
    map body (chain self) = map encode payloads
    /\ getStarsByWalletAddress getBData self address
       = Resolved (owned_stars address payloads).
Proof.
  intros Hb. destruct (built_bodies self Hb) as (payloads & Hbodies).
  exists payloads. split; [exact Hbodies | ].
  assert (Hdec : forall blocks ds,
             map body blocks = map encode ds ->
             map getBData blocks = map Normal ds).
  { induction blocks as [ | b blocks IHb]; intros [ | d ds] H; try discriminate.
    - reflexivity.
    - simpl in H. injection H as Hb0 Hrest.
      simpl. now rewrite (getBData_encode b d Hb0), (IHb ds Hrest). }
  unfold getStarsByWalletAddress.
  now rewrite (collect_stars_owned getBData address payloads (chain self) []
                 (Hdec _ _ Hbodies)).
Qed.

End BuiltPayloads.

(** ** The theorems on the sample ledgers *)

Lemma sample_ledger2_built : built Sample.digest Sample.encode Sample.ledger2.
Proof.
  change Sample.ledger2
    with (fst (_addBlock Sample.digest
                 (new_Blockchain Sample.digest Sample.encode 1638090052123)
                 (new_Block Sample.encode (DataClaim "Sirius"%string "addrA"%string))
                 1638090112457)).
  apply built_add. apply new_Blockchain_built.
Defined.

(** A challenge issued at second 1000000 and submitted 300 seconds later
    with a signature that verifies is accepted. *)
Lemma submitStar_accepts_at_300_seconds :
  let self := new_Blockchain Sample.digest Sample.encode 1000000000 in
  built Sample.digest Sample.encode self
  /\ 1000 <= 1000300999
  /\ parseInt_field (nth_error (split colon "addrA:1000000:starRegistry"%string) 1)
     = Some 1000000
  /\ 300 <= 1000300999 / 1000 - 1000000 < FIVE_MINUTES_UTC
  /\ Sample.verify "addrA:1000000:starRegistry"%string "addrA"%string "signed"%string
     = Normal true
  /\ exists block,
       submitStar Sample.digest Sample.verify Sample.encode self
         "addrA"%string "addrA:1000000:starRegistry"%string "signed"%string
         "Sirius"%string 1000300999 1000301000
       = (mkBlockchain (chain self ++ [block])
            (Z.of_nat (List.length (chain self)) + 1), Resolved block)
       /\ body block = Sample.encode (DataClaim "Sirius"%string "addrA"%string).
Proof.
  intros self.
  assert (Hb : built Sample.digest Sample.encode self) by apply new_Blockchain_built.
  assert (Hn : 1000 <= 1000300999) by lia.
  assert (Hs : parseInt_field
                 (nth_error (split colon "addrA:1000000:starRegistry"%string) 1)
               = Some 1000000) by reflexivity.
  assert (He : 300 <= 1000300999 / 1000 - 1000000 < FIVE_MINUTES_UTC)
    by (vm_compute; split; [discriminate | reflexivity]).
  assert (Hv : Sample.verify "addrA:1000000:starRegistry"%string "addrA"%string
                 "signed"%string = Normal true) by reflexivity.
  repeat (split; [assumption | ]).
  exact (submitStar_accepts_beyond_five_minutes Sample.digest Sample.verify
           Sample.encode self "addrA"%string "addrA:1000000:starRegistry"%string
           "signed"%string "Sirius"%string 1000300999 1000301000 1000000
           Hb Hn Hs He Hv).
Defined.

Lemma addBlock_chain_linked_sample :
  built Sample.digest Sample.encode Sample.ledger2
  /\ (forall i b p, (0 < i)%nat ->
        nth_error (chain Sample.ledger2) i = Some b ->
        nth_error (chain Sample.ledger2) (i - 1) = Some p ->
        previousBlockHash b = hash p /\ height b = height p + 1)
  /\ (forall g, nth_error (chain Sample.ledger2) 0 = Some g ->
        previousBlockHash g = None /\ height g = 1)
  /\ (forall i b, nth_error (chain Sample.ledger2) i = Some b ->
        previousBlockHash b = None /\ height b = 1 -> i = 0%nat).
Proof.
  split; [exact sample_ledger2_built | ].
  exact (addBlock_chain_linked Sample.digest Sample.encode Sample.ledger2
           sample_ledger2_built).
Defined.


Lemma submitStar_rejects_uniformly_sample :
  let self := new_Blockchain Sample.digest Sample.encode 1000000000 in
  let late := "addrA:1000000:starRegistry"%string in
  (* expired, signature valid *)
  (FIVE_MINUTES_UTC <= 1030000000 / 1000 - 1000000
   /\ submitStar Sample.digest Sample.verify Sample.encode self
        "addrA"%string late "signed"%string "Sirius"%string 1030000000 1030000001
      = (self, Rejected VNull))
  (* inside the window, signature invalid *)
  /\ (within_window late 1000060000 = true
      /\ Sample.verify late "addrA"%string "forged"%string = Normal false
      /\ submitStar Sample.digest Sample.verify Sample.encode self
           "addrA"%string late "forged"%string "Sirius"%string 1000060000 1000060001
         = (self, Rejected VNull)).
Proof.
  intros self late. split.
  - assert (Hlate : FIVE_MINUTES_UTC <= 1030000000 / 1000 - 1000000)
      by (vm_compute; discriminate).
    split; [exact Hlate | ].
    destruct (submitStar_rejects_uniformly Sample.digest Sample.verify Sample.encode
                self "addrA"%string late "signed"%string "Sirius"%string
                1030000000 1030000001) as (_ & _ & Hexpired & _).
    apply (Hexpired 1000000); [lia | reflexivity | exact Hlate].
  - assert (Hw : within_window late 1000060000 = true) by reflexivity.
    assert (Hv : Sample.verify late "addrA"%string "forged"%string = Normal false)
      by reflexivity.
    split; [exact Hw | ]. split; [exact Hv | ].
    destruct (submitStar_rejects_uniformly Sample.digest Sample.verify Sample.encode
                self "addrA"%string late "forged"%string "Sirius"%string
                1000060000 1000060001) as (_ & _ & _ & Hsig).
    exact (Hsig Hw Hv).
Defined.



(** The genesis Record sealed at 1638090052123 ms holds the text
    1638090052 in its time field, not a number. *)
Lemma sealed_time_not_integer :
  match chain (new_Blockchain Sample.digest Sample.encode 1638090052123) with
  | [g] => time g = VStr "1638090052"%string /\ ~ holds_integer (time g)
  | _ => False
  end.
Proof.
  simpl. split; [reflexivity | ].
  intros (n & Hn). discriminate Hn.
Qed.

Lemma sealed_time_is_seconds_text_sample :
  let empty := mkBlockchain [] (-1) in
  let block := new_Block Sample.encode (DataString genesis_text) in
  _addBlock Sample.digest empty block 1638090052123
    = (mkBlockchain [Sample.genesis] 1, Normal Sample.genesis)
  /\ 1000 <= 1638090052123
  /\ time Sample.genesis = VStr (toString (1638090052123 / 1000))
  /\ parseInt (toString (1638090052123 / 1000)) = Some (1638090052123 / 1000).
Proof.
  intros empty block.
  assert (Hadd : _addBlock Sample.digest empty block 1638090052123
                 = (mkBlockchain [Sample.genesis] 1, Normal Sample.genesis))
    by reflexivity.
  assert (Hn : 1000 <= 1638090052123) by lia.
  split; [exact Hadd | ]. split; [exact Hn | ].
  exact (proj2 (sealed_time_is_seconds_text Sample.digest empty
                  (mkBlockchain [Sample.genesis] 1) block Sample.genesis
                  1638090052123 Hadd) Hn).
Defined.

Lemma initializeChain_genesis_once_sample :
  built Sample.digest Sample.encode Sample.ledger2
  /\ chain Sample.ledger2 <> []
  /\ initializeChain Sample.digest Sample.encode Sample.ledger2 1638090200000
     = Sample.ledger2.
Proof.
  assert (Hne : chain Sample.ledger2 <> []) by discriminate.
  split; [exact sample_ledger2_built | ]. split; [exact Hne | ].
  exact (proj2 (initializeChain_genesis_once Sample.digest Sample.encode)
           Sample.ledger2 1638090200000 sample_ledger2_built Hne).
Defined.

(** Height 1 is found at array index 0; height 0 and [NaN] find nothing. *)
Lemma getBlock_first_match_or_null_sample :
  getBlockByHeight Sample.ledger2 (VNum 1)
    = Resolved (nth_error (chain Sample.ledger2) 0)
  /\ getBlockByHeight Sample.ledger2 (VNum 0) = Resolved None
  /\ getBlockByHeight Sample.ledger2 VNaN = Resolved None
  /\ getBlockByHash Sample.ledger2 (VStr "missing"%string) = Resolved None
  /\ exists found,
       getBlockByHeight Sample.ledger2 (VNum 2) = Resolved found
       /\ match found with
          | Some b => VNum (height b) = VNum 2
          | None => False
          end.
Proof.
  repeat (split; [reflexivity | ]).
  destruct (proj2 (getBlock_first_match_or_null Sample.ledger2 (VNum 2)))
    as (found & Hres & Hfound).
  exists found. split; [exact Hres | ].
  unfold getBlockByHeight in Hres. injection Hres as <-.
  vm_compute in Hfound |- *.
  destruct Hfound as (i & _ & Hkey & _). exact Hkey.
Defined.

Lemma validateChain_exempts_genesis_shape_sample :
  match chain Sample.twin_genesis with
  | [g; b] =>
      (0 < 1)%nat
      /\ nth_error (chain Sample.twin_genesis) 1 = Some b
      /\ previousBlockHash b = None
      /\ height b = 1
      /\ Sample.validate b = Normal true
      /\ (previousBlockHash b <> hash g /\ height b <> height g + 1)
      /\ entries_at Sample.validate Sample.twin_genesis 1 = []
      /\ validateChain Sample.validate Sample.twin_genesis = Resolved []
  | _ => False
  end.
Proof.
  pose proof (validateChain_exempts_genesis_shape Sample.validate
                Sample.twin_genesis 1) as Hex.
  destruct (chain Sample.twin_genesis) as [ | g [ | b [ | ? ?]]] eqn:Hc;
    try discriminate Hc.
  assert (Hpos : (0 < 1)%nat) by lia.
  assert (Hprev : previousBlockHash b = None) by (injection Hc as _ <-; reflexivity).
  assert (Hh : height b = 1) by (injection Hc as _ <-; reflexivity).
  assert (Hv : Sample.validate b = Normal true) by (injection Hc as _ <-; reflexivity).
  assert (Hbroken : previousBlockHash b <> hash g /\ height b <> height g + 1).
  { injection Hc as <- <-. split; discriminate. }
  destruct (Hex b Hpos eq_refl Hprev Hh Hv) as (_ & He & _ & Hall).
  split; [exact Hpos | ]. split; [reflexivity | ]. split; [exact Hprev | ].
  split; [exact Hh | ]. split; [exact Hv | ]. split; [exact Hbroken | ].
  split; [exact He | ].
  apply Hall. intros j e Hj Hin.
  destruct j as [ | [ | j]].
  - unfold entries_at in Hin. rewrite Hc in Hin.
    injection Hc as <- <-. exact Hin.
  - now apply Hj.
  - unfold entries_at in Hin. rewrite Hc in Hin.
    destruct j; exact Hin.
Defined.

(** * Further properties of the code *)

(** ** Challenges and the time test *)

Lemma colon_free_cons (c : ascii) (s : string) :
  colon_free (String c s) <-> c <> colon /\ colon_free s.
Proof.
  unfold colon_free. simpl. split.
  - intros H. inversion H; subst. split; assumption.
  - intros (Hc & Hs). constructor; assumption.
Qed.

Lemma split_colon_free (s : string) :
  colon_free s -> split colon s = [s].
Proof.
  induction s as [ | c s IH]; intros Hfree; [reflexivity | ].
  apply colon_free_cons in Hfree. destruct Hfree as (Hc & Hs).
  simpl. apply Ascii.eqb_neq in Hc. rewrite Hc, (IH Hs). reflexivity.
Qed.

Lemma split_append_colon (s t : string) :
  colon_free s ->
  split colon (String.append s (String colon t)) = s :: split colon t.
Proof.
  induction s as [ | c s IH]; intros Hfree.
  - simpl. change (Ascii.eqb colon colon) with true. reflexivity.
  - apply colon_free_cons in Hfree. destruct Hfree as (Hc & Hs).
    simpl. apply Ascii.eqb_neq in Hc. rewrite Hc, (IH Hs). reflexivity.
Qed.

Lemma digit_char_not_colon (c : ascii) :
  is_digit_char c -> c <> colon.
Proof.
  intros H. digit_cases H; discriminate.
Qed.

Lemma toString_colon_free (n : Z) :
  0 <= n -> colon_free (toString n).
Proof.
  intros Hn. unfold toString. destruct (Z.ltb_spec n 0); [lia | ].
  unfold colon_free, nat_toString.
  rewrite list_ascii_of_string_of_list_ascii.
  apply Forall_rev.
  eapply Forall_impl; [ | apply digits_rev_digits; exact Hn].
  intros c Hc. now apply digit_char_not_colon.
Qed.

(** The fields of an issued challenge. *)
Lemma challenge_fields (address : string) (issued_ms : Z) :
  colon_free address ->
  1000 <= issued_ms ->
  requestMessageOwnershipVerification address issued_ms
  = Resolved (String.append address
                (String.append ":"%string
                   (String.append (toString (issued_ms / 1000))
                      ":starRegistry"%string)))
  /\ split colon
       (String.append address
          (String.append ":"%string
             (String.append (toString (issued_ms / 1000)) ":starRegistry"%string)))
     = [address; toString (issued_ms / 1000); "starRegistry"%string].
Proof.
  intros Hfree Hissued.
  assert (Hq : 0 <= issued_ms / 1000) by (apply Z.div_pos; lia).
  split.
  - unfold requestMessageOwnershipVerification.
    now rewrite epoch_seconds_text_numeral.
  - change (String.append ":"%string
              (String.append (toString (issued_ms / 1000)) ":starRegistry"%string))
      with (String colon
              (String.append (toString (issued_ms / 1000))
                 (String colon "starRegistry"%string))).
    rewrite (split_append_colon address _ Hfree).
    rewrite (split_append_colon (toString (issued_ms / 1000)) _
               (toString_colon_free _ Hq)).
    reflexivity.
Qed.

(** X1: the challenge issued for an address without a colon splits into the
    address, the numeral of the second it was issued in and the word
    starRegistry, and the time test of [submitStar] on it compares the whole
    seconds between issue and submission with 30000. *)
Theorem issued_challenge_window (address : string) (issued_ms now_ms : Z) :
  colon_free address ->
  1000 <= issued_ms ->
  1000 <= now_ms ->
  exists message,
    requestMessageOwnershipVerification address issued_ms = Resolved message
    /\ split colon message
       = [address; toString (issued_ms / 1000); "starRegistry"%string]
    /\ within_window message now_ms
       = (now_ms / 1000 - issued_ms / 1000 <? FIVE_MINUTES_UTC).
Proof.
  intros Hfree Hissued Hnow.
  destruct (challenge_fields address issued_ms Hfree Hissued) as (Hmsg & Hsplit).
  eexists. split; [exact Hmsg | ]. split; [exact Hsplit | ].
  apply within_window_elapsed; [exact Hnow | ].
  rewrite Hsplit. simpl.
  apply parseInt_toString. apply Z.div_pos; lia.
Qed.

Section WindowEdges.

Context {Star : Type}.
Variable SHA256 : string -> string.
Variable verify : string -> string -> string -> Completion bool.
Variable encode : BData Star -> string.

(** X2: a message without a colon has no timestamp field, and a message
    whose second field does not parse as a number has none either: the
    claim is rejected with [null] and the ledger kept, whatever [verify]
    would answer or throw. *)
Theorem submitStar_rejects_unstamped
    (self : Blockchain) (address message signature : string) (star : Star)
    (now_ms seal_ms : Z) :
  colon_free message
  \/ parseInt_field (nth_error (split colon message) 1) = None ->
  submitStar SHA256 verify encode self address message signature star
    now_ms seal_ms
  = (self, Rejected VNull).
Proof.
  intros Hbad.
  assert (Hstamp : parseInt_field (nth_error (split colon message) 1) = None).
  { destruct Hbad as [Hfree | Hnan]; [ | exact Hnan].
    now rewrite (split_colon_free message Hfree). }
  unfold submitStar, within_window. rewrite Hstamp.
  destruct (parseInt (epoch_seconds_text now_ms)); reflexivity.
Qed.

(** X3: the time test is one-sided: a message stamped with a second later
    than the current one passes it, so with a signature that verifies the
    claim is accepted on a ledger the class has built. *)
Theorem submitStar_accepts_future_stamp
    (self : Blockchain) (address message signature : string) (star : Star)
    (now_ms seal_ms stamp : Z) :
  built SHA256 encode self ->
  1000 <= now_ms ->
  parseInt_field (nth_error (split colon message) 1) = Some stamp ->
  now_ms / 1000 < stamp ->
  verify message address signature = Normal true ->
  within_window message now_ms = true
  /\ exists block,
       submitStar SHA256 verify encode self address message signature star
         now_ms seal_ms
       = (mkBlockchain (chain self ++ [block])
            (Z.of_nat (List.length (chain self)) + 1), Resolved block).
Proof.
  intros Hb Hn Hstamp Hfuture Hverify.
  assert (Hw : within_window message now_ms = true).
  { rewrite (within_window_elapsed message now_ms stamp Hn Hstamp).
    apply Z.ltb_lt. unfold FIVE_MINUTES_UTC. lia. }
  split; [exact Hw | ].
  unfold submitStar. rewrite Hw, Hverify.
  destruct (addBlock_linked SHA256 encode self (DataClaim star address) seal_ms
              (built_linked SHA256 encode self Hb))
    as (block & Heq & _).
  rewrite Heq. now exists block.
Qed.

End WindowEdges.

(** ** Ledgers reachable through the public methods *)

Section ApiInvariants.

Context {Star : Type}.
Variable SHA256 : string -> string.
Variable verify : string -> string -> string -> Completion bool.
Variable encode : BData Star -> string.

(** The ledger [submitStar] leaves is the one it was given or the one
    [_addBlock] leaves. *)
Lemma submitStar_ledger
    (self : Blockchain) (address message signature : string) (star : Star)
    (now_ms seal_ms : Z) :
  fst (submitStar SHA256 verify encode self address message signature star
         now_ms seal_ms) = self
  \/ fst (submitStar SHA256 verify encode self address message signature star
            now_ms seal_ms)
     = fst (_addBlock SHA256 self (new_Block encode (DataClaim star address)) seal_ms).
Proof.
  unfold submitStar.
  destruct (within_window message now_ms); [ | now left].
  destruct (verify message address signature) as [[ | ] | ]; try (now left).
  right.
  destruct (_addBlock SHA256 self (new_Block encode (DataClaim star address)) seal_ms)
    as (st & [blk | ]); reflexivity.
Qed.

(** On a ledger that satisfies [linked], the three outcomes of
    [submitStar]. *)
Lemma submitStar_linked
    (self : Blockchain) (address message signature : string) (star : Star)
    (now_ms seal_ms : Z) :
  linked self ->
  (within_window message now_ms = true
   /\ verify message address signature = Normal true
   /\ exists block,
        submitStar SHA256 verify encode self address message signature star
          now_ms seal_ms
        = (mkBlockchain (chain self ++ [block])
             (Z.of_nat (List.length (chain self)) + 1), Resolved block)
        /\ height block = Z.of_nat (List.length (chain self)) + 1
        /\ body block = encode (DataClaim star address)
        /\ time block = VStr (epoch_seconds_text seal_ms)
        /\ previousBlockHash block
           = match at_index (chain self)
                     (Z.of_nat (List.length (chain self)) - 1) with
             | Some tail => hash tail
             | None => None
             end)
  \/ ((within_window message now_ms = false
       \/ verify message address signature = Normal false)
      /\ submitStar SHA256 verify encode self address message signature star
           now_ms seal_ms = (self, Rejected VNull))
  \/ (within_window message now_ms = true
      /\ verify message address signature = Throw
      /\ submitStar SHA256 verify encode self address message signature star
           now_ms seal_ms = (self, Pending)).
Proof.
  intros Hl. unfold submitStar.
  destruct (within_window message now_ms) eqn:Hw;
    [ | right; left; split; [now left | reflexivity]].
  destruct (verify message address signature) as [[ | ] | ] eqn:Hv.
  - left. split; [reflexivity | ]. split; [reflexivity | ].
    destruct (addBlock_linked SHA256 encode self (DataClaim star address) seal_ms Hl)
      as (block & Heq & Hh & Hbody & Ht & Hprev & _).
    exists block. rewrite Heq. repeat split; assumption.
  - right; left. split; [now right | reflexivity].
  - right; right. repeat split.
Qed.

Lemma reachable_built (self : Blockchain) :
  reachable SHA256 verify encode self -> built SHA256 encode self.
Proof.
  induction 1 as [now_ms | self address message signature star now_ms seal_ms _ IH
                  | self now_ms _ IH].
  - apply new_Blockchain_built.
  - destruct (submitStar_ledger self address message signature star now_ms seal_ms)
      as [-> | ->]; [exact IH | now apply built_add].
  - unfold initializeChain.
    destruct (chain_height self =? -1); [now apply built_add | exact IH].
Qed.

Lemma reachable_genesis_then_claims (self : Blockchain) :
  reachable SHA256 verify encode self -> genesis_then_claims encode self.
Proof.
  induction 1 as [now_ms | self address message signature star now_ms seal_ms Hr IH
                  | self now_ms Hr IH].
  - eexists. exists []. split; [reflexivity | ]. split; [reflexivity | constructor].
  - destruct (submitStar_linked self address message signature star now_ms seal_ms
                (built_linked SHA256 encode self (reachable_built self Hr)))
      as [(_ & _ & block & Heq & _ & Hbody & _) | [(_ & Heq) | (_ & _ & Heq)]];
      rewrite Heq; simpl fst; [ | exact IH | exact IH].
    destruct IH as (g & rest & Hc & Hg & Hrest).
    exists g, (rest ++ [block]). simpl chain. rewrite Hc.
    split; [reflexivity | ]. split; [exact Hg | ].
    apply Forall_app. split; [exact Hrest | ].
    constructor; [ | constructor]. now exists star, address.
  - destruct IH as (g & rest & Hc & Hg & Hrest).
    rewrite initializeChain_noop.
    + now exists g, rest.
    + destruct (built_linked SHA256 encode self (reachable_built self Hr)) as (Hh & _).
      rewrite Hh, Hc. simpl List.length. lia.
Qed.

(** X4: on every ledger reachable through the public methods the chain
    starts with a Record that carries the genesis text and is followed by
    claims only, and [getChainHeight] resolves with the number of Records,
    which is the height of the last Record. *)
Theorem reachable_ledger_shape (self : Blockchain) :
  reachable SHA256 verify encode self ->
  (exists g rest,
      chain self = g :: rest
      /\ body g = encode (DataString genesis_text)
      /\ Forall (holds_claim encode) rest)
  /\ getChainHeight self = Resolved (Z.of_nat (List.length (chain self)))
  /\ exists tail,
       nth_error (chain self) (List.length (chain self) - 1) = Some tail
       /\ height tail = Z.of_nat (List.length (chain self)).
Proof.
  intros Hr.
  pose proof (reachable_genesis_then_claims self Hr) as Hshape.
  destruct (built_linked SHA256 encode self (reachable_built self Hr))
    as (Hh & Hblocks & _).
  split; [exact Hshape | ].
  destruct Hshape as (g & rest & Hc & _).
  split.
  - unfold getChainHeight. rewrite Hh, Hc. reflexivity.
  - assert (Hlt : (List.length (chain self) - 1 < List.length (chain self))%nat)
      by (rewrite Hc; simpl; lia).
    apply nth_error_Some in Hlt.
    destruct (nth_error (chain self) (List.length (chain self) - 1)) as [tail | ]
      eqn:Htail; [ | contradiction].
    exists tail. split; [reflexivity | ].
    destruct (Hblocks _ _ Htail) as (Hht & _).
    rewrite Hht, Hc. simpl List.length. lia.
Qed.

(** X5: on a reachable ledger [submitStar] resolves exactly when the time
    test passes and the signature verifies, and then with a Record appended
    at the next height that carries the last Record's hash and the claim;
    it rejects with [null] when the test fails or the signature does not
    verify, and stays pending when [verify] throws; in the last two cases
    the ledger is kept. *)
Theorem submitStar_outcomes
    (self : Blockchain) (address message signature : string) (star : Star)
    (now_ms seal_ms : Z) :
  reachable SHA256 verify encode self ->
  match submitStar SHA256 verify encode self address message signature star
          now_ms seal_ms with
  | (self', Resolved block) =>
      within_window message now_ms = true
      /\ verify message address signature = Normal true
      /\ self' = mkBlockchain (chain self ++ [block]) (chain_height self + 1)
      /\ height block = chain_height self + 1
      /\ body block = encode (DataClaim star address)
      /\ (exists tail,
            nth_error (chain self) (List.length (chain self) - 1) = Some tail
            /\ previousBlockHash block = hash tail)
  | (self', Rejected reason) =>
      reason = VNull /\ self' = self
      /\ (within_window message now_ms = false
          \/ verify message address signature = Normal false)
  | (self', Pending) =>
      self' = self
      /\ within_window message now_ms = true
      /\ verify message address signature = Throw
  end.
Proof.
  intros Hr.
  pose proof (built_linked SHA256 encode self (reachable_built self Hr)) as Hl.
  destruct (reachable_genesis_then_claims self Hr) as (g & rest & Hc & _).
  assert (Hh : chain_height self = Z.of_nat (List.length (chain self))).
  { destruct Hl as (Hh & _). rewrite Hh, Hc. reflexivity. }
  destruct (submitStar_linked self address message signature star now_ms seal_ms Hl)
    as [(Hw & Hv & block & Heq & Hhb & Hbody & _ & Hprev)
       | [(Hcause & Heq) | (Hw & Hv & Heq)]];
    rewrite Heq.
  - rewrite Hh. repeat (split; [assumption || reflexivity | ]).
    assert (Hne : chain self <> []) by (rewrite Hc; discriminate).
    destruct (at_index_last_nonempty _ Hne) as (tail & Htail).
    exists tail. rewrite Htail in Hprev. split; [ | exact Hprev].
    rewrite <- at_index_nat. rewrite <- Htail. f_equal.
    rewrite Hc. simpl List.length. lia.
  - repeat split. exact Hcause.
  - repeat split; assumption.
Qed.

(** X6: no public method changes or removes a stored Record: after
    [submitStar] and after [initializeChain], on any ledger whatever, the
    chain is the old chain followed by at most one new Record. *)
Theorem public_methods_append_only
    (self : Blockchain) (address message signature : string) (star : Star)
    (now_ms seal_ms : Z) :
  (exists suffix,
      chain (fst (submitStar SHA256 verify encode self address message signature
                    star now_ms seal_ms)) = chain self ++ suffix
      /\ (List.length suffix <= 1)%nat)
  /\ (exists suffix,
        chain (initializeChain SHA256 encode self now_ms) = chain self ++ suffix
        /\ (List.length suffix <= 1)%nat).
Proof.
  assert (Hadd : forall block now,
             exists suffix,
               chain (fst (_addBlock SHA256 self block now)) = chain self ++ suffix
               /\ (List.length suffix <= 1)%nat).
  { intros block now. unfold _addBlock, seal.
    destruct (chain_height self =? -1).
    - eexists. split; [reflexivity | simpl; lia].
    - destruct (at_index (chain self) (Z.of_nat (List.length (chain self)) - 1)).
      + eexists. split; [reflexivity | simpl; lia].
      + exists []. simpl. rewrite app_nil_r. split; [reflexivity | lia]. }
  assert (Hsame : exists suffix : list Block,
             chain self = chain self ++ suffix /\ (List.length suffix <= 1)%nat).
  { exists []. rewrite app_nil_r. split; [reflexivity | simpl; lia]. }
  split.
  - destruct (submitStar_ledger self address message signature star now_ms seal_ms)
      as [-> | ->]; [exact Hsame | apply Hadd].
  - unfold initializeChain.
    destruct (chain_height self =? -1); [apply Hadd | exact Hsame].
Qed.

End ApiInvariants.

(** ** Lookups on built ledgers *)

(** Searching a list whose heights count up from [k + 1]. *)
Lemma find_height_counting (h : Z) :
  forall (blocks : list Block) (k : nat),
    (forall i b, nth_error blocks i = Some b -> height b = Z.of_nat (k + i) + 1) ->
    find (fun b => strict_eq (VNum (height b)) (VNum h)) blocks
    = if (Z.of_nat k + 1 <=? h) && (h <=? Z.of_nat (k + List.length blocks))
      then nth_error blocks (Z.to_nat (h - Z.of_nat k - 1))
      else None.
Proof.
  induction blocks as [ | b blocks IH]; intros k Hheights.
  - simpl. rewrite Nat.add_0_r.
    destruct (Z.leb_spec (Z.of_nat k + 1) h), (Z.leb_spec h (Z.of_nat k));
      simpl; try reflexivity. lia.
  - assert (Hb : height b = Z.of_nat k + 1).
    { rewrite (Hheights 0%nat b eq_refl). f_equal. lia. }
    assert (Hrest : forall i b', nth_error blocks i = Some b' ->
                                 height b' = Z.of_nat (S k + i) + 1).
    { intros i b' Hi. rewrite (Hheights (S i) b' Hi). f_equal. lia. }
    cbn [find].
    change (strict_eq (VNum (height b)) (VNum h)) with (height b =? h).
    rewrite Hb.
    destruct (Z.eqb_spec (Z.of_nat k + 1) h) as [Heq | Hne].
    + subst h.
      replace (Z.of_nat k + 1 - Z.of_nat k - 1) with 0 by lia.
      simpl List.length.
      destruct (Z.leb_spec (Z.of_nat k + 1) (Z.of_nat k + 1)); [ | lia].
      destruct (Z.leb_spec (Z.of_nat k + 1) (Z.of_nat (k + S (List.length blocks))));
        [reflexivity | lia].
    + rewrite (IH (S k) Hrest). simpl List.length.
      replace (Z.of_nat (S k + List.length blocks))
        with (Z.of_nat (k + S (List.length blocks))) by lia.
      destruct (Z.leb_spec (Z.of_nat (S k) + 1) h) as [Hlo | Hlo],
               (Z.leb_spec (Z.of_nat k + 1) h) as [Hlo' | Hlo'];
        try lia; simpl; try reflexivity.
      destruct (Z.leb_spec h (Z.of_nat (k + S (List.length blocks))));
        [ | reflexivity].
      replace (Z.to_nat (h - Z.of_nat k - 1))
        with (S (Z.to_nat (h - Z.of_nat (S k) - 1))) by lia.
      reflexivity.
Qed.

Lemma find_never {A : Type} (test : A -> bool) (xs : list A) :
  (forall x, test x = false) -> find test xs = None.
Proof.
  intros Hnever. induction xs as [ | x xs IH]; [reflexivity | ].
  simpl. now rewrite Hnever.
Qed.

Section Lookups.

Context {Star : Type}.
Variable SHA256 : string -> string.
Variable encode : BData Star -> string.

Lemma getBlockByHeight_counted (self : Blockchain) (key : Val) :
  built SHA256 encode self ->
  getBlockByHeight self key
  = Resolved
      match key with
      | VNum h =>
          if (1 <=? h) && (h <=? Z.of_nat (List.length (chain self)))
          then nth_error (chain self) (Z.to_nat (h - 1))
          else None
      | _ => None
      end.
Proof.
  intros Hb. destruct (built_linked SHA256 encode self Hb) as (_ & Hblocks & _).
  unfold getBlockByHeight. f_equal.
  destruct key as [ | | h | s].
  - apply find_never. reflexivity.
  - apply find_never. reflexivity.
  - rewrite (find_height_counting h (chain self) 0).
    + simpl Z.of_nat. simpl Nat.add.
      replace (h - 0 - 1) with (h - 1) by lia. reflexivity.
    + intros i b Hi. simpl Nat.add. now apply Hblocks.
  - apply find_never. reflexivity.
Qed.

(** X7: on a ledger the class has built, [getBlockByHeight] resolves with
    the Record at array index [h - 1] when the argument is a number [h]
    between 1 and the number of Records, and with [null] for every other
    argument. *)
Theorem getBlockByHeight_built (self : Blockchain) (key : Val) :
  built SHA256 encode self ->
  getBlockByHeight self key
  = Resolved
      match key with
      | VNum h =>
          if (1 <=? h) && (h <=? Z.of_nat (List.length (chain self)))
          then nth_error (chain self) (Z.to_nat (h - 1))
          else None
      | _ => None
      end.
Proof.
  exact (getBlockByHeight_counted self key).
Qed.

(** X8: on a ledger the class has built, every stored Record has a hash,
    [getBlockByHash] on that hash resolves with a Record that has it, and
    [getBlockByHash(null)] resolves with [null]. *)
Theorem getBlockByHash_built (self : Blockchain) :
  built SHA256 encode self ->
  (forall i b, nth_error (chain self) i = Some b ->
     exists h found,
       hash b = Some h
       /\ getBlockByHash self (VStr h) = Resolved (Some found)
       /\ hash found = Some h)
  /\ getBlockByHash self VNull = Resolved None.
Proof.
  intros Hb. destruct (built_linked SHA256 encode self Hb) as (_ & Hblocks & _).
  split.
  - intros i b Hi.
    destruct (Hblocks i b Hi) as (_ & Hsome & _).
    destruct (hash b) as [h | ] eqn:Hh; [ | contradiction].
    pose proof (find_first (fun x => strict_eq (nullable (hash x)) (VStr h))
                  (chain self)) as Hfind.
    exists h. unfold getBlockByHash.
    destruct (find _ (chain self)) as [found | ].
    + exists found. split; [reflexivity | ]. split; [reflexivity | ].
      destruct Hfind as (_ & _ & Htest & _).
      apply strict_eq_nullable in Htest.
      destruct (hash found); simpl in Htest; congruence.
    + specialize (Hfind i b Hi). simpl in Hfind.
      rewrite Hh in Hfind. simpl in Hfind. rewrite String.eqb_refl in Hfind.
      discriminate.
  - unfold getBlockByHash. f_equal.
    pose proof (find_first (fun x => strict_eq (nullable (hash x)) VNull)
                  (chain self)) as Hfind.
    destruct (find _ (chain self)) as [found | ]; [ | reflexivity].
    destruct Hfind as (i & Hi & Htest & _).
    destruct (Hblocks i found Hi) as (_ & Hsome & _).
    destruct (hash found); [discriminate Htest | contradiction].
Qed.

End Lookups.

(** ** Validation of built ledgers, and the shape of the log *)

Lemma flat_map_indices {A B : Type} (f : A -> list B) :
  forall (xs : list A) (F : nat -> list B),
    (forall i x, nth_error xs i = Some x -> F i = f x) ->
    flat_map F (seq 0 (List.length xs)) = flat_map f xs.
Proof.
  induction xs as [ | x xs IH]; intros F HF; [reflexivity | ].
  simpl List.length. simpl seq. simpl flat_map.
  rewrite (HF 0%nat x eq_refl). f_equal.
  rewrite <- seq_shift.
  rewrite flat_map_concat_map, map_map, <- flat_map_concat_map.
  apply (IH (fun i => F (S i))).
  intros i y Hi. now apply (HF (S i)).
Qed.

Lemma self_invalid_entries_none (validate : Block -> Completion bool)
    (blocks : list Block) :
  (forall b, In b blocks -> validate b = Normal true) ->
  self_invalid_entries validate blocks = [].
Proof.
  induction blocks as [ | b blocks IH]; intros Hall; [reflexivity | ].
  unfold self_invalid_entries. simpl.
  rewrite (Hall b (or_introl eq_refl)). simpl.
  apply IH. intros b' Hin. apply Hall. now right.
Qed.

Section BuiltValidation.

Context {Star : Type}.
Variable SHA256 : string -> string.
Variable encode : BData Star -> string.
Variable validate : Block -> Completion bool.

(** X9: on a ledger the class has built the link test never fails:
    [validateChain] reports exactly the Records whose own validation does
    not answer [true], in chain order, and so resolves with the empty log
    when every Record validates. *)
Theorem validateChain_built (self : Blockchain) :
  built SHA256 encode self ->
  validateChain validate self
  = Resolved (self_invalid_entries validate (chain self))
  /\ ((forall b, In b (chain self) -> validate b = Normal true) ->
      validateChain validate self = Resolved []).
Proof.
  intros Hb. destruct (built_linked SHA256 encode self Hb) as (_ & Hblocks & Hlinks).
  assert (Hlog : validateChain validate self
                 = Resolved (self_invalid_entries validate (chain self))).
  { unfold validateChain. rewrite validate_loop_accumulates. simpl. f_equal.
    unfold self_invalid_entries.
    apply flat_map_indices.
    intros i b Hi. unfold entries_at. rewrite Hi.
    pose proof (check_block_sound validate self i b) as Hsound.
    unfold record_sound in Hsound.
    destruct (validate b) as [[ | ] | ] eqn:Hv.
    - assert (Hok : check_block validate self (Z.of_nat i) b = Normal true).
      { apply Hsound. split; [reflexivity | ].
        destruct (Hblocks i b Hi) as (Hh & _ & Hprev).
        destruct i as [ | j].
        - left. split; [now apply Hprev | exact Hh].
        - right.
          assert (Hlt : (j < List.length (chain self))%nat).
          { assert (S j < List.length (chain self))%nat
              by (apply nth_error_Some; congruence). lia. }
          apply nth_error_Some in Hlt.
          destruct (nth_error (chain self) j) as [p | ] eqn:Hp; [ | contradiction].
          exists p. replace (S j - 1)%nat with j by lia.
          split; [lia | ]. split; [exact Hp | ].
          split; [now apply (Hlinks j) | ].
          destruct (Hblocks j p Hp) as (Hhp & _). lia. }
      now rewrite Hok.
    - unfold check_block. now rewrite Hv.
    - unfold check_block. now rewrite Hv. }
  split; [exact Hlog | ].
  intros Hall. rewrite Hlog. f_equal.
  now apply self_invalid_entries_none.
Qed.

End BuiltValidation.

Section LogShape.

Variable validate : Block -> Completion bool.

(** X10: on any chain, the log of [validateChain] has at most one entry per
    Record, and each entry carries [valid: false] and the hash of a Record
    of the chain. *)
Theorem validateChain_log_shape (self : Blockchain) :
  exists log,
    validateChain validate self = Resolved log
    /\ (List.length log <= List.length (chain self))%nat
    /\ forall e, In e log ->
         entry_valid e = false
         /\ exists b, In b (chain self) /\ entry_hash e = hash b.
Proof.
  eexists. split.
  - unfold validateChain. rewrite validate_loop_accumulates. reflexivity.
  - simpl. split.
    + assert (Hlen : forall indices,
                 (List.length (flat_map (entries_at validate self) indices)
                  <= List.length indices)%nat).
      { induction indices as [ | i indices IH]; [simpl; lia | ].
        simpl. rewrite length_app.
        assert (List.length (entries_at validate self i) <= 1)%nat.
        { unfold entries_at.
          destruct (nth_error (chain self) i) as [b | ]; [ | simpl; lia].
          destruct (check_block validate self (Z.of_nat i) b) as [[ | ] | ];
            simpl; lia. }
        lia. }
      specialize (Hlen (seq 0 (List.length (chain self)))).
      now rewrite length_seq in Hlen.
    + intros e Hin. apply in_flat_map in Hin. destruct Hin as (i & _ & Hie).
      unfold entries_at in Hie.
      destruct (nth_error (chain self) i) as [b | ] eqn:Hb; [ | contradiction].
      assert (He : e = error_entry b).
      { destruct (check_block validate self (Z.of_nat i) b) as [[ | ] | ];
          simpl in Hie; intuition congruence. }
      subst e. split; [reflexivity | ].
      exists b. split; [ | reflexivity]. eapply nth_error_In; eassumption.
Qed.

End LogShape.

(** ** Stars after a submission *)

Section StarsAfterSubmit.

Context {Star : Type}.
Variable SHA256 : string -> string.
Variable verify : string -> string -> string -> Completion bool.
Variable encode : BData Star -> string.
Variable getBData : Block -> Completion (BData Star).

Lemma submitStar_resolved_chain
    (self self' : Blockchain) (address message signature : string) (star : Star)
    (now_ms seal_ms : Z) (block : Block) :
  submitStar SHA256 verify encode self address message signature star
    now_ms seal_ms = (self', Resolved block) ->
  chain self' = chain self ++ [block].
Proof.
  unfold submitStar.
  destruct (within_window message now_ms); [ | discriminate].
  destruct (verify message address signature) as [[ | ] | ]; try discriminate.
  unfold _addBlock, seal.
  destruct (chain_height self =? -1).
  - intros H. injection H as <- <-. reflexivity.
  - destruct (at_index (chain self) (Z.of_nat (List.length (chain self)) - 1));
      [ | discriminate].
    intros H. injection H as <- <-. reflexivity.
Qed.

Lemma owned_stars_snoc (owner : string) (payloads : list (BData Star))
    (d : BData Star) :
  owned_stars owner (payloads ++ [d])
  = owned_stars owner payloads ++ owned_stars owner [d].
Proof.
  unfold owned_stars. now rewrite flat_map_app.
Qed.

(** X11: when the stored payloads decode and the Record that [submitStar]
    resolved with decodes to the submitted claim, the stars of the
    submitting address are the former ones followed by the new star, and
    the stars of every other address are the former ones. *)
Theorem stars_after_submitStar
    (self self' : Blockchain) (address message signature : string) (star : Star)
    (now_ms seal_ms : Z) (block : Block) (payloads : list (BData Star))
    (owner : string) :
  map getBData (chain self) = map Normal payloads ->
  submitStar SHA256 verify encode self address message signature star
    now_ms seal_ms = (self', Resolved block) ->
  getBData block = Normal (DataClaim star address) ->
  getStarsByWalletAddress getBData self owner
  = Resolved (owned_stars owner payloads)
  /\ getStarsByWalletAddress getBData self' owner
     = Resolved (owned_stars owner payloads
                 ++ (if String.eqb address owner then [star] else [])).
Proof.
  intros Hdec Hsubmit Hblock.
  split.
  - unfold getStarsByWalletAddress.
    now rewrite (collect_stars_owned getBData owner payloads (chain self) [] Hdec).
  - assert (Hdec' : map getBData (chain self')
                    = map Normal (payloads ++ [DataClaim star address])).
    { rewrite (submitStar_resolved_chain _ _ _ _ _ _ _ _ _ Hsubmit).
      rewrite !map_app, Hdec. simpl. now rewrite Hblock. }
    unfold getStarsByWalletAddress.
    rewrite (collect_stars_owned getBData owner _ (chain self') [] Hdec').
    simpl app. rewrite owned_stars_snoc. unfold owned_stars at 2. simpl.
    destruct (String.eqb address owner); reflexivity.
Qed.

Lemma collect_stars_throws (address : string) :
  forall (blocks : list Block) (stars : list Star) (b : Block),
    In b blocks -> getBData b = Throw ->
    collect_stars getBData blocks address stars = Throw.
Proof.
  induction blocks as [ | b0 blocks IH]; intros stars b Hin Hthrow;
    [contradiction | ].
  simpl. destruct (getBData b0) as [[text | star owner] | ] eqn:H0;
    [ | | reflexivity].
  - destruct Hin as [-> | Hin]; [congruence | now apply (IH stars b)].
  - destruct Hin as [-> | Hin]; [congruence | ].
    destruct (String.eqb owner address); now apply (IH _ b).
Qed.

(** X12: when the payload of some Record of the chain fails to decode,
    [getStarsByWalletAddress] neither resolves nor rejects, for every
    address. *)
Theorem stars_pending_on_decode_failure
    (self : Blockchain) (address : string) (b : Block) :
  In b (chain self) ->
  getBData b = Throw ->
  getStarsByWalletAddress getBData self address = Pending.
Proof.
  intros Hin Hthrow. unfold getStarsByWalletAddress.
  now rewrite (collect_stars_throws address (chain self) [] b Hin Hthrow).
Qed.

End StarsAfterSubmit.

(** ** The HTTP handlers *)

Lemma truthy_append (s t : string) :
  truthy s = true -> truthy (String.append s t) = true.
Proof.
  destruct s; [discriminate | reflexivity].
Qed.

Section Handlers.

Context {Star : Type}.
Variable SHA256 : string -> string.
Variable verify : string -> string -> string -> Completion bool.
Variable encode : BData Star -> string.
Variable getBData : Block -> Completion (BData Star).
Variable star_truthy : Star -> bool.

(** X13: on a ledger the class has built, [GET /block/height/:height]
    answers 200 with the Record at array index [h - 1] when the parameter
    parses to a number [h] between 1 and the number of Records, and 404
    when it parses to another number or to [NaN]. *)
Theorem getBlockByHeight_endpoint_built (self : Blockchain) (reqHeight : string) :
  built SHA256 encode self ->
  truthy reqHeight = true ->
  (forall h, parseInt reqHeight = Some h ->
     1 <= h <= Z.of_nat (List.length (chain self)) ->
     exists b,
       nth_error (chain self) (Z.to_nat (h - 1)) = Some b
       /\ height b = h
       /\ getBlockByHeight_endpoint (Star := Star) self reqHeight
          = Some (mkResponse 200 (SentBlock b)))
  /\ (parseInt reqHeight = None
      \/ (exists h, parseInt reqHeight = Some h
                    /\ (h < 1 \/ Z.of_nat (List.length (chain self)) < h)) ->
      getBlockByHeight_endpoint (Star := Star) self reqHeight
      = Some (mkResponse 404 (SentText "Block Not Found!"%string))).
Proof.
  intros Hb Htruthy.
  destruct (built_linked SHA256 encode self Hb) as (_ & Hblocks & _).
  unfold getBlockByHeight_endpoint. rewrite Htruthy.
  rewrite (getBlockByHeight_counted SHA256 encode self _ Hb).
  split.
  - intros h Hparse Hrange. rewrite Hparse. simpl number_val. cbv iota.
    destruct (Z.leb_spec 1 h); [ | lia].
    destruct (Z.leb_spec h (Z.of_nat (List.length (chain self)))); [ | lia].
    simpl andb. cbv iota.
    assert (Hlt : (Z.to_nat (h - 1) < List.length (chain self))%nat) by lia.
    apply nth_error_Some in Hlt.
    destruct (nth_error (chain self) (Z.to_nat (h - 1))) as [b | ] eqn:Hnth;
      [ | contradiction].
    exists b. split; [reflexivity | ]. split; [ | reflexivity].
    destruct (Hblocks _ _ Hnth) as (Hh & _). lia.
  - intros [Hnan | (h & Hparse & Hout)].
    + rewrite Hnan. reflexivity.
    + rewrite Hparse. simpl number_val. cbv iota.
      destruct (Z.leb_spec 1 h); simpl andb; cbv iota; [ | reflexivity].
      destruct (Z.leb_spec h (Z.of_nat (List.length (chain self))));
        [lia | reflexivity].
Qed.

(** X14: [GET /blocks/:address] never answers 404 or 500: with a non-empty
    address it answers 200 with the list, also when the list is empty, or
    does not answer at all; with an empty address it answers 400. *)
Theorem getStarsByOwner_endpoint_statuses (self : Blockchain) (address : string) :
  (forall r, getStarsByOwner_endpoint getBData self address = Some r ->
     (status r = 200 /\ truthy address = true
      /\ getStarsByWalletAddress getBData self address = Resolved
           match sent r with SentStars stars => stars | _ => [] end
      /\ exists stars, sent r = SentStars stars)
     \/ (status r = 400 /\ address = EmptyString))
  /\ (forall payloads,
        truthy address = true ->
        map getBData (chain self) = map Normal payloads ->
        owned_stars address payloads = [] ->
        getStarsByOwner_endpoint getBData self address
        = Some (mkResponse 200 (SentStars []))).
Proof.
  split.
  - intros r. unfold getStarsByOwner_endpoint.
    destruct (truthy address) eqn:Ht.
    + unfold getStarsByWalletAddress.
      destruct (collect_stars getBData (chain self) address []) as [stars | ];
        [ | discriminate].
      intros H. injection H as <-. left. simpl.
      split; [reflexivity | ]. split; [reflexivity | ].
      split; [reflexivity | now exists stars].
    + intros H. injection H as <-. right. split; [reflexivity | ].
      unfold truthy in Ht. apply negb_false_iff in Ht.
      now apply String.eqb_eq in Ht.
  - intros payloads Ht Hdec Hnone. unfold getStarsByOwner_endpoint.
    rewrite Ht. unfold getStarsByWalletAddress.
    rewrite (collect_stars_owned getBData address payloads (chain self) [] Hdec).
    simpl. now rewrite Hnone.
Qed.

(** X15: [POST /submitstar] answers 200 with the Record that was appended,
    or 500 with [null] and the ledger kept, or 400 with the ledger kept when
    a property of the body is missing or falsy; when it does not answer the
    chain is kept. *)
Theorem submitStar_endpoint_statuses
    (self : Blockchain) (address message signature : option string)
    (star : option Star) (now_ms seal_ms : Z) :
  match submitStar_endpoint SHA256 verify encode star_truthy self address message
          signature star now_ms seal_ms with
  | (self', Some r) =>
      (status r = 200
       /\ exists b, sent r = SentBlock b /\ chain self' = chain self ++ [b])
      \/ (status r = 500 /\ sent r = SentVal VNull /\ self' = self)
      \/ (status r = 400 /\ self' = self
          /\ (truthy_field address = false \/ truthy_field message = false
              \/ truthy_field signature = false
              \/ match star with
                 | Some star_value => star_truthy star_value = false
                 | None => True
                 end))
  | (self', None) => chain self' = chain self
  end.
Proof.
  unfold submitStar_endpoint.
  destruct star as [star_value | ];
    [ | right; right; simpl; repeat split; auto].
  destruct (truthy_field address) eqn:Ha;
    [ | right; right; simpl; repeat split; auto].
  destruct (truthy_field message) eqn:Hm;
    [ | right; right; simpl; repeat split; auto].
  destruct (truthy_field signature) eqn:Hs;
    [ | right; right; simpl; repeat split; auto].
  destruct (star_truthy star_value) eqn:Hstar;
    [ | right; right; simpl; repeat split; auto 6].
  simpl andb. cbv iota.
  destruct (submitStar SHA256 verify encode self (field_text address)
              (field_text message) (field_text signature) star_value
              now_ms seal_ms) as (self' & [block | reason | ]) eqn:Hsubmit.
  - left. simpl. split; [reflexivity | ]. exists block. split; [reflexivity | ].
    exact (submitStar_resolved_chain SHA256 verify encode _ _ _ _ _ _ _ _ _ Hsubmit).
  - right; left. simpl.
    unfold submitStar in Hsubmit.
    destruct (within_window (field_text message) now_ms).
    + destruct (verify (field_text message) (field_text address)
                  (field_text signature)) as [[ | ] | ].
      * destruct (_addBlock SHA256 self
                    (new_Block encode (DataClaim star_value (field_text address)))
                    seal_ms) as (st & [blk | ]); discriminate.
      * injection Hsubmit as <- <-. repeat split.
      * discriminate.
    + injection Hsubmit as <- <-. repeat split.
  - unfold submitStar in Hsubmit.
    destruct (within_window (field_text message) now_ms); [ | discriminate].
    destruct (verify (field_text message) (field_text address)
                (field_text signature)) as [[ | ] | ].
    + unfold _addBlock, seal in Hsubmit.
      destruct (chain_height self =? -1); [discriminate | ].
      destruct (at_index (chain self) (Z.of_nat (List.length (chain self)) - 1));
        [discriminate | ].
      injection Hsubmit as <-. reflexivity.
    + discriminate.
    + injection Hsubmit as <-. reflexivity.
Qed.

(** X16: [POST /requestValidation] answers 200 with the challenge for a
    non-empty address and 400 otherwise; it never answers 500. *)
Theorem requestOwnership_endpoint_statuses (address : option string) (now_ms : Z) :
  requestOwnership_endpoint (Star := Star) address now_ms
  = if truthy_field address
    then Some (mkResponse 200
                 (SentJson
                    (String.append (field_text address)
                       (String.append ":"%string
                          (String.append (epoch_seconds_text now_ms)
                             ":starRegistry"%string)))))
    else Some (mkResponse 400 (SentText "Check the Body Parameter!"%string)).
Proof.
  unfold requestOwnership_endpoint.
  destruct (truthy_field address) eqn:Ha; [ | reflexivity].
  unfold requestMessageOwnershipVerification.
  rewrite truthy_append; [reflexivity | ].
  destruct address as [a | ]; [exact Ha | discriminate].
Qed.

End Handlers.

Section EndToEnd.

Context {Star : Type}.
Variable SHA256 : string -> string.
Variable verify : string -> string -> string -> Completion bool.
Variable encode : BData Star -> string.
Variable star_truthy : Star -> bool.

(** X17: on a reachable ledger, the challenge that [POST /requestValidation]
    answers for a non-empty address without a colon, sent back to
    [POST /submitstar] fewer than 30000 whole seconds later with a truthy
    star and a non-empty signature that verifies, is answered 200 with a new
    Record at the next height that carries the claim. *)
Theorem challenge_then_submit_accepted
    (self : Blockchain) (address signature : string) (star : Star)
    (issued_ms now_ms seal_ms : Z) :
  reachable SHA256 verify encode self ->
  colon_free address ->
  truthy address = true ->
  truthy signature = true ->
  star_truthy star = true ->
  1000 <= issued_ms ->
  1000 <= now_ms ->
  now_ms / 1000 - issued_ms / 1000 < FIVE_MINUTES_UTC ->
  exists message,
    requestOwnership_endpoint (Star := Star) (Some address) issued_ms
    = Some (mkResponse 200 (SentJson message))
    /\ (verify message address signature = Normal true ->
        exists block,
          submitStar_endpoint SHA256 verify encode star_truthy self
            (Some address) (Some message) (Some signature) (Some star)
            now_ms seal_ms
          = (mkBlockchain (chain self ++ [block])
               (Z.of_nat (List.length (chain self)) + 1),
             Some (mkResponse 200 (SentBlock block)))
          /\ height block = Z.of_nat (List.length (chain self)) + 1
          /\ body block = encode (DataClaim star address)).
Proof.
  intros Hr Hfree Haddr Hsig Hstar Hissued Hnow Helapsed.
  destruct (challenge_fields address issued_ms Hfree Hissued) as (Hmsg & Hsplit).
  set (message := String.append address
                    (String.append ":"%string
                       (String.append (toString (issued_ms / 1000))
                          ":starRegistry"%string))) in *.
  assert (Htruthy : truthy message = true) by (apply truthy_append; exact Haddr).
  exists message. split.
  - unfold requestOwnership_endpoint. simpl truthy_field. rewrite Haddr.
    simpl field_text. rewrite Hmsg, Htruthy. reflexivity.
  - intros Hverify.
    assert (Hw : within_window message now_ms = true).
    { rewrite (within_window_elapsed message now_ms (issued_ms / 1000) Hnow).
      - now apply Z.ltb_lt.
      - rewrite Hsplit. simpl. apply parseInt_toString. apply Z.div_pos; lia. }
    destruct (submitStar_linked SHA256 verify encode self address message signature
                star now_ms seal_ms
                (built_linked SHA256 encode self
                   (reachable_built SHA256 verify encode self Hr)))
      as [(_ & _ & block & Heq & Hh & Hbody & _) | [([Hc | Hc] & _) | (_ & Hc & _)]];
      try congruence.
    exists block. unfold submitStar_endpoint. simpl truthy_field.
    rewrite Haddr, Htruthy, Hsig, Hstar. simpl andb. cbv iota.
    simpl field_text. rewrite Heq.
    split; [reflexivity | ]. split; assumption.
Qed.

End EndToEnd.

(** ** The further properties on the sample ledgers *)

Lemma sample_ledger2_reachable :
  reachable Sample.digest Sample.verify Sample.encode Sample.ledger2.
Proof.
  unfold Sample.ledger2. apply reachable_submit, reachable_new.
Defined.

Lemma colon_free_addrA : colon_free "addrA"%string.
Proof.
  unfold colon_free. simpl. repeat constructor; discriminate.
Defined.

Lemma issued_challenge_window_sample :
  colon_free "addrA"%string
  /\ 1000 <= 1638090052123
  /\ 1000 <= 1638090112456
  /\ exists message,
       requestMessageOwnershipVerification "addrA"%string 1638090052123
       = Resolved message
       /\ split colon message
          = ["addrA"%string; toString (1638090052123 / 1000); "starRegistry"%string]
       /\ within_window message 1638090112456
          = (1638090112456 / 1000 - 1638090052123 / 1000 <? FIVE_MINUTES_UTC).
Proof.
  assert (H1 : 1000 <= 1638090052123) by lia.
  assert (H2 : 1000 <= 1638090112456) by lia.
  split; [exact colon_free_addrA | ]. split; [exact H1 | ]. split; [exact H2 | ].
  exact (issued_challenge_window "addrA"%string 1638090052123 1638090112456
           colon_free_addrA H1 H2).
Defined.

Lemma submitStar_rejects_unstamped_sample :
  let self := new_Blockchain Sample.digest Sample.encode 1000000000 in
  (colon_free "addrA"%string
   \/ parseInt_field (nth_error (split colon "addrA"%string) 1) = None)
  /\ submitStar Sample.digest Sample.verify Sample.encode self "addrA"%string
       "addrA"%string "signed"%string "Sirius"%string 1000060000 1000060001
     = (self, Rejected VNull)
  /\ submitStar Sample.digest Sample.verify Sample.encode self "addrA"%string
       "addrA:soon:starRegistry"%string "signed"%string "Sirius"%string
       1000060000 1000060001
     = (self, Rejected VNull).
Proof.
  intros self.
  assert (H1 : colon_free "addrA"%string
               \/ parseInt_field (nth_error (split colon "addrA"%string) 1) = None)
    by (left; exact colon_free_addrA).
  assert (H2 : colon_free "addrA:soon:starRegistry"%string
               \/ parseInt_field
                    (nth_error (split colon "addrA:soon:starRegistry"%string) 1)
                  = None)
    by (right; reflexivity).
  split; [exact H1 | ]. split.
  - exact (submitStar_rejects_unstamped Sample.digest Sample.verify Sample.encode
             self "addrA"%string "addrA"%string "signed"%string "Sirius"%string
             1000060000 1000060001 H1).
  - exact (submitStar_rejects_unstamped Sample.digest Sample.verify Sample.encode
             self "addrA"%string "addrA:soon:starRegistry"%string "signed"%string
             "Sirius"%string 1000060000 1000060001 H2).
Defined.

Lemma submitStar_accepts_future_stamp_sample :
  let self := new_Blockchain Sample.digest Sample.encode 1000000000 in
  let message := "addrA:9999999999:starRegistry"%string in
  built Sample.digest Sample.encode self
  /\ 1000 <= 1000060000
  /\ parseInt_field (nth_error (split colon message) 1) = Some 9999999999
  /\ 1000060000 / 1000 < 9999999999
  /\ Sample.verify message "addrA"%string "signed"%string = Normal true
  /\ within_window message 1000060000 = true
  /\ exists block,
       submitStar Sample.digest Sample.verify Sample.encode self "addrA"%string
         message "signed"%string "Sirius"%string 1000060000 1000060001
       = (mkBlockchain (chain self ++ [block])
            (Z.of_nat (List.length (chain self)) + 1), Resolved block).
Proof.
  intros self message.
  assert (Hb : built Sample.digest Sample.encode self) by apply new_Blockchain_built.
  assert (Hn : 1000 <= 1000060000) by lia.
  assert (Hs : parseInt_field (nth_error (split colon message) 1) = Some 9999999999)
    by reflexivity.
  assert (Hf : 1000060000 / 1000 < 9999999999) by (vm_compute; reflexivity).
  assert (Hv : Sample.verify message "addrA"%string "signed"%string = Normal true)
    by reflexivity.
  repeat (split; [assumption | ]).
  exact (submitStar_accepts_future_stamp Sample.digest Sample.verify Sample.encode
           self "addrA"%string message "signed"%string "Sirius"%string
           1000060000 1000060001 9999999999 Hb Hn Hs Hf Hv).
Defined.

Lemma reachable_ledger_shape_sample :
  reachable Sample.digest Sample.verify Sample.encode Sample.ledger2
  /\ getChainHeight Sample.ledger2 = Resolved 2
  /\ exists g rest,
       chain Sample.ledger2 = g :: rest
       /\ body g = Sample.encode (DataString genesis_text)
       /\ Forall (holds_claim Sample.encode) rest.
Proof.
  split; [exact sample_ledger2_reachable | ].
  destruct (reachable_ledger_shape Sample.digest Sample.verify Sample.encode
              Sample.ledger2 sample_ledger2_reachable) as (Hshape & Hheight & _).
  split; [exact Hheight | exact Hshape].
Defined.

Lemma submitStar_outcomes_sample :
  reachable Sample.digest Sample.verify Sample.encode Sample.ledger2
  /\ match submitStar Sample.digest Sample.verify Sample.encode Sample.ledger2
             "addrB"%string "addrB:1638090200:starRegistry"%string
             "signed"%string "Vega"%string 1638090230000 1638090230001 with
     | (self', Resolved block) =>
         within_window "addrB:1638090200:starRegistry"%string 1638090230000 = true
         /\ Sample.verify "addrB:1638090200:starRegistry"%string "addrB"%string
              "signed"%string = Normal true
         /\ self' = mkBlockchain (chain Sample.ledger2 ++ [block])
                      (chain_height Sample.ledger2 + 1)
         /\ height block = chain_height Sample.ledger2 + 1
         /\ body block = Sample.encode (DataClaim "Vega"%string "addrB"%string)
         /\ (exists tail,
               nth_error (chain Sample.ledger2)
                 (List.length (chain Sample.ledger2) - 1) = Some tail
               /\ previousBlockHash block = hash tail)
     | (self', Rejected reason) =>
         reason = VNull /\ self' = Sample.ledger2
         /\ (within_window "addrB:1638090200:starRegistry"%string 1638090230000
             = false
             \/ Sample.verify "addrB:1638090200:starRegistry"%string
                  "addrB"%string "signed"%string = Normal false)
     | (self', Pending) =>
         self' = Sample.ledger2
         /\ within_window "addrB:1638090200:starRegistry"%string 1638090230000
            = true
         /\ Sample.verify "addrB:1638090200:starRegistry"%string "addrB"%string
              "signed"%string = Throw
     end.
Proof.
  split; [exact sample_ledger2_reachable | ].
  exact (submitStar_outcomes Sample.digest Sample.verify Sample.encode
           Sample.ledger2 "addrB"%string "addrB:1638090200:starRegistry"%string
           "signed"%string "Vega"%string 1638090230000 1638090230001
           sample_ledger2_reachable).
Defined.

Lemma getBlockByHeight_built_sample :
  built Sample.digest Sample.encode Sample.ledger2
  /\ getBlockByHeight Sample.ledger2 (VNum 2)
     = Resolved
         (if (1 <=? 2) && (2 <=? Z.of_nat (List.length (chain Sample.ledger2)))
          then nth_error (chain Sample.ledger2) (Z.to_nat (2 - 1))
          else None)
  /\ getBlockByHeight Sample.ledger2 (VNum 3)
     = Resolved
         (if (1 <=? 3) && (3 <=? Z.of_nat (List.length (chain Sample.ledger2)))
          then nth_error (chain Sample.ledger2) (Z.to_nat (3 - 1))
          else None)
  /\ getBlockByHeight Sample.ledger2 (VStr "2"%string) = Resolved None.
Proof.
  split; [exact sample_ledger2_built | ]. split; [ | split].
  - exact (getBlockByHeight_built Sample.digest Sample.encode Sample.ledger2
             (VNum 2) sample_ledger2_built).
  - exact (getBlockByHeight_built Sample.digest Sample.encode Sample.ledger2
             (VNum 3) sample_ledger2_built).
  - exact (getBlockByHeight_built Sample.digest Sample.encode Sample.ledger2
             (VStr "2"%string) sample_ledger2_built).
Defined.

Lemma getBlockByHash_built_sample :
  built Sample.digest Sample.encode Sample.ledger2
  /\ (exists h found,
        hash Sample.claim_record = Some h
        /\ getBlockByHash Sample.ledger2 (VStr h) = Resolved (Some found)
        /\ hash found = Some h)
  /\ getBlockByHash Sample.ledger2 VNull = Resolved None.
Proof.
  split; [exact sample_ledger2_built | ].
  destruct (getBlockByHash_built Sample.digest Sample.encode Sample.ledger2
              sample_ledger2_built) as (Hstored & Hnull).
  split; [ | exact Hnull].
  exact (Hstored 1%nat Sample.claim_record eq_refl).
Defined.

Lemma validateChain_built_sample :
  built Sample.digest Sample.encode Sample.ledger2
  /\ Forall (fun b => Sample.validate b = Normal true) (chain Sample.ledger2)
  /\ validateChain Sample.validate Sample.ledger2 = Resolved [].
Proof.
  assert (Hall : Forall (fun b => Sample.validate b = Normal true)
                   (chain Sample.ledger2))
    by (repeat constructor).
  split; [exact sample_ledger2_built | ]. split; [exact Hall | ].
  apply (proj2 (validateChain_built Sample.digest Sample.encode Sample.validate
                  Sample.ledger2 sample_ledger2_built)).
  intros b Hin. exact (proj1 (Forall_forall _ _) Hall b Hin).
Defined.

Lemma stars_after_submitStar_sample :
  let self := new_Blockchain Sample.digest Sample.encode 1638090052123 in
  let payloads := [DataString genesis_text] in
  map Sample.getBData (chain self) = map Normal payloads
  /\ submitStar Sample.digest Sample.verify Sample.encode self "addrA"%string
       "addrA:1638090052:starRegistry"%string "signed"%string "Sirius"%string
       1638090112456 1638090112457
     = (Sample.ledger2, Resolved Sample.claim_record)
  /\ Sample.getBData Sample.claim_record
     = Normal (DataClaim "Sirius"%string "addrA"%string)
  /\ getStarsByWalletAddress Sample.getBData self "addrA"%string = Resolved []
  /\ getStarsByWalletAddress Sample.getBData Sample.ledger2 "addrA"%string
     = Resolved ["Sirius"%string]
  /\ getStarsByWalletAddress Sample.getBData Sample.ledger2 "addrB"%string
     = Resolved [].
Proof.
  intros self payloads.
  assert (Hdec : map Sample.getBData (chain self) = map Normal payloads)
    by reflexivity.
  assert (Hsub : submitStar Sample.digest Sample.verify Sample.encode self
                   "addrA"%string "addrA:1638090052:starRegistry"%string
                   "signed"%string "Sirius"%string 1638090112456 1638090112457
                 = (Sample.ledger2, Resolved Sample.claim_record))
    by reflexivity.
  assert (Hblock : Sample.getBData Sample.claim_record
                   = Normal (DataClaim "Sirius"%string "addrA"%string))
    by reflexivity.
  split; [exact Hdec | ]. split; [exact Hsub | ]. split; [exact Hblock | ].
  destruct (stars_after_submitStar Sample.digest Sample.verify Sample.encode
              Sample.getBData self Sample.ledger2 "addrA"%string
              "addrA:1638090052:starRegistry"%string "signed"%string
              "Sirius"%string 1638090112456 1638090112457 Sample.claim_record
              payloads "addrA"%string Hdec Hsub Hblock) as (Hbefore & Hafter).
  destruct (stars_after_submitStar Sample.digest Sample.verify Sample.encode
              Sample.getBData self Sample.ledger2 "addrA"%string
              "addrA:1638090052:starRegistry"%string "signed"%string
              "Sirius"%string 1638090112456 1638090112457 Sample.claim_record
              payloads "addrB"%string Hdec Hsub Hblock) as (_ & Hother).
  split; [exact Hbefore | ]. split; [exact Hafter | exact Hother].
Defined.

Lemma stars_pending_on_decode_failure_sample :
  let b := nth 1 (chain Sample.garbled) Sample.genesis in
  In b (chain Sample.garbled)
  /\ Sample.getBData b = Throw
  /\ getStarsByWalletAddress Sample.getBData Sample.garbled "addrA"%string
     = Pending.
Proof.
  intros b.
  assert (Hin : In b (chain Sample.garbled)) by (right; left; reflexivity).
  assert (Hthrow : Sample.getBData b = Throw) by reflexivity.
  split; [exact Hin | ]. split; [exact Hthrow | ].
  exact (stars_pending_on_decode_failure Sample.getBData Sample.garbled
           "addrA"%string b Hin Hthrow).
Defined.

Lemma getBlockByHeight_endpoint_built_sample :
  built Sample.digest Sample.encode Sample.ledger2
  /\ truthy "2nd"%string = true
  /\ parseInt "2nd"%string = Some 2
  /\ (exists b,
        nth_error (chain Sample.ledger2) (Z.to_nat (2 - 1)) = Some b
        /\ height b = 2
        /\ getBlockByHeight_endpoint (Star := string) Sample.ledger2 "2nd"%string
           = Some (mkResponse 200 (SentBlock b)))
  /\ getBlockByHeight_endpoint (Star := string) Sample.ledger2 "second"%string
     = Some (mkResponse 404 (SentText "Block Not Found!"%string))
  /\ getBlockByHeight_endpoint (Star := string) Sample.ledger2 "0"%string
     = Some (mkResponse 404 (SentText "Block Not Found!"%string)).
Proof.
  assert (Ht : truthy "2nd"%string = true) by reflexivity.
  assert (Hp : parseInt "2nd"%string = Some 2) by reflexivity.
  split; [exact sample_ledger2_built | ]. split; [exact Ht | ]. split; [exact Hp | ].
  split; [ | split].
  - apply (proj1 (getBlockByHeight_endpoint_built (Star := string) Sample.digest
                    Sample.encode Sample.ledger2 "2nd"%string
                    sample_ledger2_built Ht) 2 Hp).
    vm_compute. split; discriminate.
  - apply (proj2 (getBlockByHeight_endpoint_built (Star := string) Sample.digest
                    Sample.encode Sample.ledger2 "second"%string
                    sample_ledger2_built eq_refl)).
    left. reflexivity.
  - apply (proj2 (getBlockByHeight_endpoint_built (Star := string) Sample.digest
                    Sample.encode Sample.ledger2 "0"%string
                    sample_ledger2_built eq_refl)).
    right. exists 0. split; [reflexivity | left; lia].
Defined.

Lemma challenge_then_submit_accepted_sample :
  let self := Sample.ledger2 in
  reachable Sample.digest Sample.verify Sample.encode self
  /\ colon_free "addrA"%string
  /\ truthy "addrA"%string = true
  /\ truthy "signed"%string = true
  /\ truthy "Vega"%string = true
  /\ 1000 <= 1638090200000
  /\ 1000 <= 1638090230000
  /\ 1638090230000 / 1000 - 1638090200000 / 1000 < FIVE_MINUTES_UTC
  /\ exists message,
       requestOwnership_endpoint (Star := string) (Some "addrA"%string)
         1638090200000
       = Some (mkResponse 200 (SentJson message))
       /\ Sample.verify message "addrA"%string "signed"%string = Normal true
       /\ exists block,
            submitStar_endpoint Sample.digest Sample.verify Sample.encode truthy
              self (Some "addrA"%string) (Some message) (Some "signed"%string)
              (Some "Vega"%string) 1638090230000 1638090230001
            = (mkBlockchain (chain self ++ [block])
                 (Z.of_nat (List.length (chain self)) + 1),
               Some (mkResponse 200 (SentBlock block)))
            /\ height block = Z.of_nat (List.length (chain self)) + 1
            /\ body block
               = Sample.encode (DataClaim "Vega"%string "addrA"%string).
Proof.
  intros self.
  assert (H1 : truthy "addrA"%string = true) by reflexivity.
  assert (H2 : truthy "signed"%string = true) by reflexivity.
  assert (H3 : truthy "Vega"%string = true) by reflexivity.
  assert (H4 : 1000 <= 1638090200000) by lia.
  assert (H5 : 1000 <= 1638090230000) by lia.
  assert (H6 : 1638090230000 / 1000 - 1638090200000 / 1000 < FIVE_MINUTES_UTC)
    by (vm_compute; reflexivity).
  split; [exact sample_ledger2_reachable | ]. split; [exact colon_free_addrA | ].
  repeat (split; [assumption | ]).
  destruct (challenge_then_submit_accepted Sample.digest Sample.verify
              Sample.encode truthy self "addrA"%string "signed"%string
              "Vega"%string 1638090200000 1638090230000 1638090230001
              sample_ledger2_reachable colon_free_addrA H1 H2 H3 H4 H5 H6)
    as (message & Hmsg & Hsubmit).
  exists message. split; [exact Hmsg | ].
  assert (Hv : Sample.verify message "addrA"%string "signed"%string = Normal true)
    by reflexivity.
  split; [exact Hv | exact (Hsubmit Hv)].
Defined.

(** ** A changed Record shows at its successor *)

Section TamperEvidence.

Context {Star : Type}.
Variable SHA256 : string -> string.
Variable encode : BData Star -> string.
Variable validate : Block -> Completion bool.

(** X18: take a ledger the class has built and replace a Record that has a
    successor by one with another hash or another height: whatever
    [validate] answers, [validateChain] then reports the successor. *)
Theorem validateChain_reports_successor_of_changed
    (self : Blockchain) (front back : list Block) (b changed next : Block)
    (h : Z) :
  built SHA256 encode self ->
  chain self = front ++ b :: next :: back ->
  hash changed <> hash b \/ height changed <> height b ->
  exists log,
    validateChain validate (mkBlockchain (front ++ changed :: next :: back) h)
    = Resolved log
    /\ In (error_entry next) log.
Proof.
  intros Hb Hc Hdiff.
  destruct (built_linked SHA256 encode self Hb) as (_ & Hblocks & Hlinks).
  set (tampered := mkBlockchain (front ++ changed :: next :: back) h).
  set (i := List.length front).
  assert (Hb0 : nth_error (chain self) i = Some b).
  { rewrite Hc. unfold i. rewrite nth_error_app2 by lia.
    now rewrite Nat.sub_diag. }
  assert (Hn0 : nth_error (chain self) (S i) = Some next).
  { rewrite Hc. unfold i. rewrite nth_error_app2 by lia.
    replace (S (List.length front) - List.length front)%nat with 1%nat by lia.
    reflexivity. }
  assert (Hb1 : nth_error (chain tampered) i = Some changed).
  { unfold tampered. cbn [chain]. unfold i. rewrite nth_error_app2 by lia.
    now rewrite Nat.sub_diag. }
  assert (Hn1 : nth_error (chain tampered) (S i) = Some next).
  { unfold tampered. cbn [chain]. unfold i. rewrite nth_error_app2 by lia.
    replace (S (List.length front) - List.length front)%nat with 1%nat by lia.
    reflexivity. }
  destruct (Hblocks _ _ Hb0) as (Hhb & Hhash & _).
  destruct (Hblocks _ _ Hn0) as (Hhn & _ & _).
  pose proof (Hlinks i b next Hb0 Hn0) as Hprev.
  assert (Hunsound : ~ record_sound validate tampered (S i) next).
  { intros (_ & [(Hnone & _) | (p & _ & Hp & Hpp & Hph)]).
    - rewrite Hprev in Hnone. contradiction.
    - replace (S i - 1)%nat with i in Hp by lia.
      rewrite Hb1 in Hp. injection Hp as <-.
      destruct Hdiff as [Hd | Hd].
      + apply Hd. now rewrite <- Hpp.
      + apply Hd. lia. }
  eexists. split.
  - unfold validateChain. rewrite validate_loop_accumulates. reflexivity.
  - simpl app.
    apply (entries_in_log validate tampered (S i) next _ Hn1).
    rewrite (proj2 (entries_at_sound validate tampered (S i) next Hn1) Hunsound).
    now left.
Qed.

End TamperEvidence.

Lemma validateChain_reports_successor_of_changed_sample :
  let forged := set_hash (Some "forged"%string) Sample.genesis in
  built Sample.digest Sample.encode Sample.ledger2
  /\ chain Sample.ledger2 = [] ++ Sample.genesis :: Sample.claim_record :: []
  /\ (hash forged <> hash Sample.genesis \/ height forged <> height Sample.genesis)
  /\ exists log,
       validateChain Sample.validate
         (mkBlockchain ([] ++ forged :: Sample.claim_record :: []) 2)
       = Resolved log
       /\ In (error_entry Sample.claim_record) log.
Proof.
  intros forged.
  assert (Hc : chain Sample.ledger2 = [] ++ Sample.genesis :: Sample.claim_record :: [])
    by reflexivity.
  assert (Hd : hash forged <> hash Sample.genesis
               \/ height forged <> height Sample.genesis)
    by (left; discriminate).
  split; [exact sample_ledger2_built | ]. split; [exact Hc | ]. split; [exact Hd | ].
  exact (validateChain_reports_successor_of_changed Sample.digest Sample.encode
           Sample.validate Sample.ledger2 [] [] Sample.genesis forged
           Sample.claim_record 2 sample_ledger2_built Hc Hd).
Defined.

(** * The digest input as an encoding of the other fields *)

Lemma append_assoc (a b c : string) :
  String.append (String.append a b) c = String.append a (String.append b c).
Proof.
  induction a as [ | x a IH]; [reflexivity | ]. simpl. now rewrite IH.
Qed.

Lemma append_inj_l (s a b : string) :
  String.append s a = String.append s b -> a = b.
Proof.
  induction s as [ | x s IH]; simpl; intros H; [exact H | ].
  injection H as H. now apply IH.
Qed.

Lemma read_escaped_char (c : ascii) (s : string) :
  read_escaped (String.append (json_escape_char c) s) = Some (c, s).
Proof.
  destruct c as [[ | ] [ | ] [ | ] [ | ] [ | ] [ | ] [ | ] [ | ]]; reflexivity.
Qed.

Lemma read_escaped_quote (s : string) :
  read_escaped (String.append dquote s) = None.
Proof. reflexivity. Qed.

(** The escaped content of a string literal up to its closing quote
    determines the string and what follows the quote. *)
Lemma json_escape_cons (c : ascii) (p rest : string) :
  String.append (json_escape (String c p)) rest
  = String.append (json_escape_char c) (String.append (json_escape p) rest).
Proof.
  cbn [json_escape]. apply append_assoc.
Qed.

Lemma json_escape_inj (p : string) :
  forall (q r r' : string),
    String.append (json_escape p) (String.append dquote r)
    = String.append (json_escape q) (String.append dquote r') ->
    p = q /\ r = r'.
Proof.
  induction p as [ | c p IH]; intros [ | d q] r r' H.
  - cbn [json_escape String.append] in H.
    apply (append_inj_l dquote) in H. split; [reflexivity | exact H].
  - exfalso. rewrite json_escape_cons in H.
    cbn [json_escape] in H.
    change (String.append EmptyString (String.append dquote r))
      with (String.append dquote r) in H.
    apply (f_equal read_escaped) in H.
    rewrite read_escaped_quote, read_escaped_char in H. discriminate.
  - exfalso. rewrite json_escape_cons in H.
    cbn [json_escape] in H.
    change (String.append EmptyString (String.append dquote r'))
      with (String.append dquote r') in H.
    apply (f_equal read_escaped) in H.
    rewrite read_escaped_quote, read_escaped_char in H. discriminate.
  - rewrite !json_escape_cons in H.
    apply (f_equal read_escaped) in H.
    rewrite !read_escaped_char in H. injection H as -> H.
    destruct (IH q r r' H) as (-> & ->). split; reflexivity.
Qed.

Lemma json_string_inj (p q r r' : string) :
  String.append (json_string p) r = String.append (json_string q) r' ->
  p = q /\ r = r'.
Proof.
  unfold json_string. rewrite !append_assoc. intros H.
  apply append_inj_l in H.
  now apply json_escape_inj.
Qed.

Lemma comma_split (s : string) :
  forall (s' r r' : string),
    comma_free s -> comma_free s' ->
    String.append s (String ","%char r) = String.append s' (String ","%char r') ->
    s = s' /\ r = r'.
Proof.
  unfold comma_free.
  induction s as [ | c s IH]; intros [ | c' s'] r r' Hs Hs' H; simpl in *.
  - injection H as H. split; [reflexivity | exact H].
  - injection H as Hc _. inversion Hs' as [ | x xs Hx _]; subst. congruence.
  - injection H as Hc _. inversion Hs as [ | x xs Hx _]; subst. congruence.
  - injection H as -> H.
    inversion Hs as [ | x xs _ Hrest]; subst.
    inversion Hs' as [ | x' xs' _ Hrest']; subst.
    destruct (IH s' r r' Hrest Hrest' H) as (-> & ->). split; reflexivity.
Qed.

Lemma nat_toString_digits (n : Z) :
  0 <= n -> Forall is_digit_char (list_ascii_of_string (nat_toString n)).
Proof.
  intros Hn. unfold nat_toString. rewrite list_ascii_of_string_of_list_ascii.
  apply Forall_rev. now apply digits_rev_digits.
Qed.

Lemma digit_char_not_comma (c : ascii) :
  is_digit_char c -> c <> ","%char.
Proof.
  intros H. digit_cases H; discriminate.
Qed.

Lemma toString_comma_free (n : Z) : comma_free (toString n).
Proof.
  unfold comma_free, toString.
  destruct (Z.ltb_spec n 0).
  - simpl. constructor; [discriminate | ].
    eapply Forall_impl; [ | apply nat_toString_digits; lia].
    intros c Hc. now apply digit_char_not_comma.
  - eapply Forall_impl; [ | apply nat_toString_digits; lia].
    intros c Hc. now apply digit_char_not_comma.
Qed.

Lemma nat_toString_inj (x y : Z) :
  0 <= x -> 0 <= y -> nat_toString x = nat_toString y -> x = y.
Proof.
  intros Hx Hy H.
  assert (Htx : toString x = nat_toString x)
    by (unfold toString; destruct (Z.ltb_spec x 0); [lia | reflexivity]).
  assert (Hty : toString y = nat_toString y)
    by (unfold toString; destruct (Z.ltb_spec y 0); [lia | reflexivity]).
  pose proof (parseInt_toString x Hx) as Hpx.
  pose proof (parseInt_toString y Hy) as Hpy.
  rewrite Htx, H, <- Hty, Hpy in Hpx. now injection Hpx.
Qed.

Lemma minus_not_numeral (s : string) (n : Z) :
  0 <= n -> String "-"%char s <> nat_toString n.
Proof.
  intros Hn H. pose proof (nat_toString_digits n Hn) as Hd.
  rewrite <- H in Hd. simpl in Hd. inversion Hd as [ | c cs Hc _]; subst.
  digit_cases Hc; discriminate.
Qed.

Lemma toString_inj (a b : Z) : toString a = toString b -> a = b.
Proof.
  unfold toString.
  destruct (Z.ltb_spec a 0) as [Ha | Ha], (Z.ltb_spec b 0) as [Hb | Hb];
    intros Heq.
  - injection Heq as Heq. apply nat_toString_inj in Heq; lia.
  - exfalso. now apply (minus_not_numeral _ b) in Heq.
  - exfalso. symmetry in Heq. now apply (minus_not_numeral _ a) in Heq.
  - now apply nat_toString_inj.
Qed.

(** The digest input, member by member. *)
Lemma digest_input_members (h : Z) (p : string) (t : Val) (prev : option string) :
  digest_input h p t prev
  = String.append
      (String "{"%char
         (String.append (json_key "hash"%string)
            (String.append "null"%string
               (String ","%char (json_key "height"%string)))))
      (String.append (toString h)
         (String ","%char
            (String.append (json_key "body"%string)
               (String.append (json_string p)
                  (String ","%char
                     (String.append (json_key "time"%string)
                        (String.append (json_val t)
                           (String ","%char
                              (String.append (json_key "previousBlockHash"%string)
                                 (String.append (json_val (nullable prev))
                                    "}"%string)))))))))).
Proof.
  unfold digest_input, JSON_stringify, json_object.
  cbn [map fst snd String.concat hash height body time previousBlockHash json_val].
  repeat first [rewrite !append_assoc | progress (cbn [String.append])].
  reflexivity.
Qed.

Lemma string_tail_eq (c : ascii) (a b : string) :
  String c a = String c b -> a = b.
Proof.
  intros H. now injection H.
Qed.

(** The digest input determines the height, the payload, the time text and
    the predecessor hash it was made from. *)
Lemma digest_input_inj (h h' : Z) (p p' t t' : string) (prev prev' : option string) :
  digest_input h p (VStr t) prev = digest_input h' p' (VStr t') prev' ->
  h = h' /\ p = p' /\ t = t' /\ prev = prev'.
Proof.
  rewrite !digest_input_members. intros H.
  apply append_inj_l in H.
  apply comma_split in H; [ | apply toString_comma_free | apply toString_comma_free].
  destruct H as (Hh & H). apply toString_inj in Hh.
  apply append_inj_l in H.
  apply json_string_inj in H. destruct H as (Hp & H).
  apply string_tail_eq in H. apply append_inj_l in H.
  cbn [json_val] in H.
  apply json_string_inj in H. destruct H as (Ht & H).
  apply string_tail_eq in H. apply append_inj_l in H.
  assert (Hprev : prev = prev').
  { destruct prev as [s | ], prev' as [s' | ]; cbn [nullable json_val] in H.
    - apply json_string_inj in H. destruct H as (-> & _). reflexivity.
    - exfalso. unfold json_string, dquote in H. cbn [String.append] in H.
      discriminate H.
    - exfalso. unfold json_string, dquote in H. cbn [String.append] in H.
      discriminate H.
    - reflexivity. }
  repeat split; assumption.
Qed.
